(** * Shallow embedding of the coursework repository

    The development follows the repository file by file:
    - [MathAndStatistics], [ColorSpace], [Plotting], [FileManagement] and
      [Serializable] embed [Common.py], over the string and file-system
      models [Str] and [Os];
    - [VnStar] embeds [SJK004_ComputationalIntelligence/vn_star.py];
    - [Ej0201] embeds [SJK006_BigData/0201_numpy.py];
    - [P1] embeds [SJK002_ComputerVision/LAB1/p1-4students/p1.py].

    Python integers are [Z]; binary64 floats are Corelib's [spec_float] at
    precision 53, with correctly rounded operations; the linear system of
    [Ej0201] is solved over the exact rationals [Q], and the power-law
    transforms of [P1] are stated over [R].  Exceptions are explicit
    results.  The modules come first, the properties after them. *)

From Stdlib Require Import ZArith QArith Lia Lra Reals.
From Stdlib Require Import Floats.SpecFloat Ascii String.
From stdpp Require Import gmap strings list fin_maps.

Local Open Scope Z_scope.

(** ** Common.py, class MathAndStatistics: [poly_eval] *)

Module MathAndStatistics.

(** [y = 0; for a in coefs: y = y*x + a; return y] *)
Definition poly_eval (coefs : list Z) (x : Z) : Z :=
  fold_left (fun y a => y * x + a) coefs 0.

(** The polynomial the docstring describes: coefficients from the higher
    power to the lower, [coefs[i]] multiplying [x^(n-i)] with [n] the
    degree [len coefs - 1]. *)
Definition poly_term (coefs : list Z) (x : Z) (i : nat) : Z :=
  nth i coefs 0 * x ^ Z.of_nat (length coefs - 1 - i).

Definition poly_sum (coefs : list Z) (x : Z) : Z :=
  fold_right Z.add 0 (map (poly_term coefs x) (seq 0 (length coefs))).

(** *** [remove_outliers_from_signal]

    The signal is an array (or a list) of binary64 floats, as numpy holds
    it; every operation is the correctly rounded one of [SpecFloat]. *)

Definition fadd : spec_float -> spec_float -> spec_float := SFadd 53 1024.
Definition fsub : spec_float -> spec_float -> spec_float := SFsub 53 1024.
Definition fdiv : spec_float -> spec_float -> spec_float := SFdiv 53 1024.
Definition flt : spec_float -> spec_float -> bool := SFltb.
Definition fle : spec_float -> spec_float -> bool := SFleb.

(** The conversion of an integer to binary64. *)
Definition float_of_Z (z : Z) : spec_float := binary_normalize 53 1024 z 0 false.

Definition is_nan (x : spec_float) : bool :=
  match x with S754_nan => true | _ => false end.

Definition is_finite (x : spec_float) : bool :=
  match x with S754_zero _ | S754_finite _ _ _ => true | _ => false end.

(** The truth value of a numpy float: false for the two zeros only (nan
    is true). *)
Definition truthy (x : spec_float) : bool := negb (SFeqb x (S754_zero false)).

(** numpy's pairwise summation of a float array: fewer than 8 elements are
    added in order, starting from -0.0; up to 128 elements go through 8
    running sums that are combined as a tree, the rest being added in
    order; a longer array is cut in two near the middle, at a multiple
    of 8. *)
Definition pairwise_block (a : list spec_float) : spec_float :=
  let n := length a in
  let m := (n - n mod 8)%nat in
  let r :=
    fold_left (fun r k => zip_with fadd r (firstn 8 (skipn (8 * k) a)))
              (seq 1 (m / 8 - 1)) (firstn 8 a) in
  let r_ k := nth k r S754_nan in
  let res := fadd (fadd (fadd (r_ 0%nat) (r_ 1%nat)) (fadd (r_ 2%nat) (r_ 3%nat)))
                  (fadd (fadd (r_ 4%nat) (r_ 5%nat)) (fadd (r_ 6%nat) (r_ 7%nat))) in
  fold_left fadd (skipn m a) res.

(** The recursion halves the array: a depth of [length a] is never used
    up. *)
Fixpoint pairwise_sum (depth : nat) (a : list spec_float) : spec_float :=
  let n := length a in
  if (n <? 8)%nat then fold_left fadd a (S754_zero true)
  else if (n <=? 128)%nat then pairwise_block a
  else
    match depth with
    | O => S754_nan
    | S depth' =>
        let n2 := (n / 2 - (n / 2) mod 8)%nat in
        fadd (pairwise_sum depth' (firstn n2 a)) (pairwise_sum depth' (skipn n2 a))
    end.

(** [np.mean] and [np.average] without weights: the sum, accumulated on
    the additive identity -0.0, divided by the number of elements; nan
    (0/0) for an empty array.  Older numpy releases start from +0.0, which
    differs in the sign of a zero sum only. *)
Definition np_mean (a : list spec_float) : spec_float :=
  fdiv (fadd (S754_zero true) (pairwise_sum (length a) a))
       (float_of_Z (Z.of_nat (length a))).

Definition np_average (a : list spec_float) : spec_float := np_mean a.

Fixpoint insert_sorted (x : spec_float) (l : list spec_float) : list spec_float :=
  match l with
  | [] => [x]
  | y :: l' => if fle x y then x :: y :: l' else y :: insert_sorted x l'
  end.

Definition sort (l : list spec_float) : list spec_float := fold_right insert_sorted [] l.

(** [np.median]: nan when the data holds a nan; otherwise the mean of the
    middle element of the sorted data, of the two middle ones for an even
    length, of nothing (nan) for empty data.  The two zeros compare equal,
    so which one comes first in the sorted data is not fixed by numpy; it
    can change the sign of a zero median only. *)
Definition median (a : list spec_float) : spec_float :=
  let n := length a in
  if existsb is_nan a then S754_nan
  else
    let part := sort a in
    let index := (n / 2)%nat in
    if Nat.odd n then np_mean (firstn 1 (skipn index part))
    else np_mean (firstn 2 (skipn (index - 1) part)).

(** Python slice bound: a negative index counts from the end, and both
    bounds are clamped to [0, len]. *)
Definition slice_bound (len k : Z) : Z :=
  if k <? 0 then Z.max (k + len) 0 else Z.min k len.

(** [l[a:b]] *)
Definition slice {T} (l : list T) (a b : Z) : list T :=
  let len := Z.of_nat (length l) in
  let lo := slice_bound len a in
  let hi := slice_bound len b in
  firstn (Z.to_nat (hi - lo)) (skipn (Z.to_nat lo) l).

(** [_d = np.abs(data - np.median(data)); _mdev = np.median(_d);
     _s = _d/_mdev if _mdev else np.zeros(len(_d));
     data_removed = [data[i] if _s[i] < max_stdev else np.average(...)
                     for i in range(len(data))]]. *)
Definition remove_outliers_from_signal
    (data : list spec_float) (max_stdev : spec_float) (window_size : Z)
    : list spec_float :=
  let med := median data in
  let _d := map (fun x => SFabs (fsub x med)) data in
  let _mdev := median _d in
  let _s := if truthy _mdev
            then map (fun d => fdiv d _mdev) _d
            else map (fun _ => S754_zero false) _d in
  map (fun i =>
         if flt (nth i _s S754_nan) max_stdev
         then nth i data S754_nan
         else
           let zi := Z.of_nat i in
           np_average (slice data (zi - window_size / 2) (zi - 1)
                       ++ slice data (zi + 1) (zi + window_size / 2)))
      (seq 0 (length data)).

End MathAndStatistics.

(** ** vn_star.py *)

Module VnStar.

(** Python numbers of the script: [int] and binary64 [float]. *)
Inductive num :=
| Int (z : Z)
| Float (f : spec_float).

Definition prec : Z := 53.
Definition emax : Z := 1024.

(** int -> float conversion (exact below 2^53). *)
Definition float_of_int (z : Z) : spec_float :=
  binary_normalize prec emax z 0 false.

Definition to_float (n : num) : spec_float :=
  match n with
  | Int z => float_of_int z
  | Float f => f
  end.

(** [a * b]: int when both are int, float otherwise. *)
Definition mul (a b : num) : num :=
  match a, b with
  | Int x, Int y => Int (x * y)
  | _, _ => Float (SFmul prec emax (to_float a) (to_float b))
  end.

Definition add (a b : num) : num :=
  match a, b with
  | Int x, Int y => Int (x + y)
  | _, _ => Float (SFadd prec emax (to_float a) (to_float b))
  end.

(** [a == b] on numbers. *)
Definition num_eqb (a b : num) : bool :=
  match a, b with
  | Int x, Int y => Z.eqb x y
  | _, _ => SFeqb (to_float a) (to_float b)
  end.

(** [==] on lists: same length and element-wise [==]. *)
Fixpoint list_eqb (u v : list num) : bool :=
  match u, v with
  | [], [] => true
  | a :: u', b :: v' => num_eqb a b && list_eqb u' v'
  | _, _ => false
  end.

(** The float literals that occur: [m * 2^e] in canonical form. *)
Definition float_lit (m e : Z) : num := Float (binary_normalize prec emax m e false).

Definition Rs : list num := [Int 0; Int 0; Int 0; Int 0; Int 1].
Definition V0 : list num := [Int 0; Int 0; Int 0; Int 0; Int 0].
Definition Tsas : num := Int 1.
Definition Gamma : num := float_lit 1 (-1).

(** Result of running Python code: a value, an uncaught exception, or the
    model's fuel exhausted. *)
Inductive outcome (A : Type) :=
| Done (a : A)
| Raised
| OutOfFuel.
Arguments Done {A} a.
Arguments Raised {A}.
Arguments OutOfFuel {A}.

(** One element of the comprehension
    [Tsas * Rs[j] + Gamma * VnList[-1][j+1] if j < len(Rs)-1 else Tsas * Rs[j]];
    indexing out of range raises. *)
Definition v_elem (prev : list num) (j : nat) : option num :=
  if (j <? length Rs - 1)%nat
  then r ← Rs !! j; v ← prev !! (j + 1)%nat; Some (add (mul Tsas r) (mul Gamma v))
  else r ← Rs !! j; Some (mul Tsas r).

(** [[... for j in range(len(Rs))]] *)
Definition v_next (prev : list num) : option (list num) :=
  mapM (v_elem prev) (seq 0 (length Rs)).

(** [l[-1]] and [l[-2]] *)
Definition last1 {A} (l : list A) : option A := rev l !! 0%nat.
Definition last2 {A} (l : list A) : option A := rev l !! 1%nat.

(** [while VnList[-1] != VnList[-2]: v_new = ...; VnList.append(v_new)] *)
Fixpoint while_loop (fuel : nat) (VnList : list (list num)) : outcome (list (list num)) :=
  match fuel with
  | O => OutOfFuel
  | S fuel' =>
      match last1 VnList, last2 VnList with
      | Some a, Some b =>
          if negb (list_eqb a b)
          then match v_next a with
               | Some v_new => while_loop fuel' (VnList ++ [v_new])
               | None => Raised
               end
          else Done VnList
      | _, _ => Raised
      end
  end.

(** The script up to its [print]: seed [V0], append one vector, loop. *)
Definition script (fuel : nat) : outcome (list (list num)) :=
  let VnList := [V0] in
  match last1 VnList with
  | Some a =>
      match v_next a with
      | Some v1 => while_loop fuel (VnList ++ [v1])
      | None => Raised
      end
  | None => Raised
  end.

(** What the final [print] shows: [VnList[-1]] and [len(VnList) - 2]. *)
Definition Vstar (VnList : list (list num)) : option (list num) := last1 VnList.
Definition iterations (VnList : list (list num)) : Z := Z.of_nat (length VnList) - 2.

(** The vector [[0.0625, 0.125, 0.25, 0.5, 1.0]]. *)
Definition V_expected : list num :=
  [float_lit 1 (-4); float_lit 1 (-3); float_lit 1 (-2); float_lit 1 (-1); float_lit 1 0].

(** The vector the script prints, and the seven vectors it holds when the
    loop ends. *)
Definition V_final : list num :=
  [float_lit 1 (-4); float_lit 1 (-3); float_lit 1 (-2); float_lit 1 (-1); Int 1].


Definition VnList_final : list (list num) :=
  [ V0;
    [Float (S754_zero false); Float (S754_zero false); Float (S754_zero false);
     Float (S754_zero false); Int 1];
    [Float (S754_zero false); Float (S754_zero false); Float (S754_zero false);
     float_lit 1 (-1); Int 1];
    [Float (S754_zero false); Float (S754_zero false); float_lit 1 (-2);
     float_lit 1 (-1); Int 1];
    [Float (S754_zero false); float_lit 1 (-3); float_lit 1 (-2);
     float_lit 1 (-1); Int 1];
    V_final;
    V_final ].

End VnStar.


(** ** 0201_numpy.py: command line and graph ranking *)

Module Ej0201.

Local Open Scope string_scope.

(** *** [loadArgs] and the [__main__] block *)

Definition is_digit (c : ascii) : bool :=
  let n := nat_of_ascii c in (48 <=? n)%nat && (n <=? 57)%nat.

Definition digit_val (c : ascii) : Z := Z.of_nat (nat_of_ascii c) - 48.

Fixpoint digits (s : string) (acc : Z) : option Z :=
  match s with
  | EmptyString => Some acc
  | String c s' => if is_digit c then digits s' (10 * acc + digit_val c) else None
  end.

(** [int(s)] as [type=int] applies it: an optional sign and decimal digits
    (blanks around the number and [_] between digits are left out);
    [None] is the [ValueError] that argparse reports as a usage error. *)
Definition py_int (s : string) : option Z :=
  match s with
  | EmptyString => None
  | String "-" (String c r) => Z.opp <$> digits (String c r) 0
  | String "+" (String c r) => digits (String c r) 0
  | _ => digits s 0
  end.

(** What [parser.parse_args()] does with [sys.argv[1:]]: a namespace, or
    [SystemExit] with a status. *)
Inductive parsed :=
| Namespace (number : option Z)
| SystemExit (code : Z).

(** The parser has the implicit [-h/--help] and the one optional argument
    [-n/--number] of [type=int] (no [required=True], no default: [None]
    when absent).  A later occurrence overrides an earlier one.  The
    separated forms [-n V] and [--number V] are modelled; attached values
    ([-nV], [--number=V]) and abbreviated long options are not, and count
    as usage errors here like any other token. *)
Fixpoint parse_args (argv : list string) (number : option Z) : parsed :=
  match argv with
  | [] => Namespace number
  | tok :: rest =>
      if (String.eqb tok "-h" || String.eqb tok "--help")%bool then SystemExit 0
      else if (String.eqb tok "-n" || String.eqb tok "--number")%bool then
        match rest with
        | [] => SystemExit 2
        | v :: rest' =>
            match py_int v with
            | Some k => parse_args rest' (Some k)
            | None => SystemExit 2
            end
        end
      else SystemExit 2
  end.

(** [loadArgs()] returns [args.number]. *)
Definition loadArgs (argv : list string) : parsed := parse_args argv None.

Inductive demo := ej1_nodos_call | ej2_pandas_call.

(** The [__main__] block: the demonstrations called, in order, and the
    exit status.  [match ej: case 2: ej2_pandas()  case _: ej1_nodos()]. *)
Definition main (argv : list string) : list demo * Z :=
  match loadArgs argv with
  | SystemExit code => ([], code)
  | Namespace ej =>
      match ej with
      | Some 2 => ([ej2_pandas_call], 0)
      | _ => ([ej1_nodos_call], 0)
      end
  end.

(** A run fails before either demonstration executes. *)
Definition fails_before_demo (r : list demo * Z) : Prop :=
  r.1 = [] /\ r.2 <> 0.

(** *** [ej1_nodos]: the ranking computation (plotting left out) *)

Local Open Scope Q_scope.

Definition A : list (list Z) :=
  [ [0; 2; 5; 0; 0];
    [2; 0; 3; 4; 0];
    [5; 3; 0; 2; 0];
    [0; 4; 2; 0; 1];
    [0; 0; 0; 1; 0] ]%Z.

Definition objective_node : nat := 1.

(** [np.sum(A, axis=1)] *)
Definition degrees (A : list (list Z)) : list Z := map (fold_right Z.add 0%Z) A.

(** [np.diag(degrees)] *)
Definition diag (d : list Z) : list (list Z) :=
  imap (fun i x => imap (fun j _ => if Nat.eqb i j then x else 0%Z) d) d.

(** [D - A] *)
Definition mat_sub (X Y : list (list Z)) : list (list Z) :=
  zip_with (zip_with Z.sub) X Y.

(** [mask = np.ones(n, dtype=bool); mask[objective_node] = False] *)
Definition make_mask (n k : nat) : list bool := <[k := false]> (replicate n true).

(** [v[mask]] *)
Fixpoint select {T} (mask : list bool) (v : list T) : list T :=
  match mask, v with
  | b :: mask', x :: v' => if b then x :: select mask' v' else select mask' v'
  | _, _ => []
  end.

(** [L[mask][:, mask]] *)
Definition reduce (mask : list bool) (L : list (list Z)) : list (list Z) :=
  map (select mask) (select mask L).

(** [np.linalg.solve], as exact Gauss-Jordan elimination on the augmented
    rows; [None] is [LinAlgError] (singular matrix). *)
Definition row_scale (k : Q) (r : list Q) : list Q := map (fun x => Qred (k * x)) r.
Definition row_elim (c : nat) (p r : list Q) : list Q :=
  let f := nth c r 0 in zip_with (fun x y => Qred (x - f * y)) r p.

Fixpoint find_pivot (c : nat) (rows : list (list Q)) : option (list Q * list (list Q)) :=
  match rows with
  | [] => None
  | r :: rows' =>
      if Qeq_bool (nth c r 0) 0
      then '(p, others) ← find_pivot c rows'; Some (p, r :: others)
      else Some (r, rows')
  end.

Fixpoint gauss_jordan (cols : list nat) (done todo : list (list Q)) : option (list (list Q)) :=
  match cols with
  | [] => Some done
  | c :: cols' =>
      '(p, others) ← find_pivot c todo;
      let p' := row_scale (/ nth c p 0) p in
      gauss_jordan cols' (map (row_elim c p') done ++ [p'])%list (map (row_elim c p') others)
  end.

Definition solve (M : list (list Z)) (b : list Q) : option (list Q) :=
  let n := length M in
  let aug := zip_with (fun r y => (map inject_Z r ++ [y])%list) M b in
  rows ← gauss_jordan (seq 0 n) [] aug;
  Some (map (fun r => nth n r 0) rows).

(** [full_x = np.zeros(n); full_x[mask] = x]; [None] is the [ValueError]
    raised when [x] has not one value per selected position. *)
Fixpoint scatter (mask : list bool) (x : list Q) : option (list Q) :=
  match mask with
  | [] => match x with [] => Some [] | _ :: _ => None end
  | true :: mask' =>
      match x with
      | v :: x' => cons v <$> scatter mask' x'
      | [] => None
      end
  | false :: mask' => cons 0 <$> scatter mask' x
  end.

(** [np.argsort]: indices in ascending order of value (insertion sort,
    stable). *)
Fixpoint insert_idx (v : list Q) (i : nat) (sorted : list nat) : list nat :=
  match sorted with
  | [] => [i]
  | j :: rest =>
      if Qle_bool (nth j v 0) (nth i v 0)
      then j :: insert_idx v i rest
      else i :: j :: rest
  end.

Definition argsort (v : list Q) : list nat :=
  fold_left (fun acc i => insert_idx v i acc) (seq 0 (length v)) [].

Definition mat_vec (M : list (list Z)) (x : list Q) : list Q :=
  map (fun r => fold_right Qplus 0 (zip_with (fun a y => inject_Z a * y) r x)) M.

(** The numeric part of [ej1_nodos]: the printed [full_x] and [ranking]. *)
Definition ej1_nodos : option (list Q * list nat) :=
  let n := length A in
  let D := diag (degrees A) in
  let L := mat_sub D A in
  let mask := make_mask n objective_node in
  let L_reduced := reduce mask L in
  let b := replicate (n - 1) 1 in
  x ← solve L_reduced b;
  full_x ← scatter mask x;
  let ranking := argsort full_x in
  Some (full_x, ranking).

End Ej0201.


(** ** Common.py: the colour-space catalogue *)

Module ColorSpace.

Local Open Scope string_scope.

Module CHANNEL.
Definition Red := "R".
Definition Green := "G".
Definition Blue := "B".
Definition Hue := "H".
Definition Saturation := "S".
Definition Value := "V".
Definition Lightness := "L".
Definition X := "X".
Definition Y := "Y".
Definition Z := "Z".
Definition L := "L*".
Definition NL := "nL*".
Definition A := "A*".
Definition B := "B*".
Definition C := "C*".
Definition H := "H*".
End CHANNEL.

(** Every attribute set on the [COLOR_SPACE.CHANNEL] namespace, in the
    order of the assignments. *)
Definition CHANNEL_values : list string :=
  [CHANNEL.Red; CHANNEL.Green; CHANNEL.Blue;
   CHANNEL.Hue; CHANNEL.Saturation; CHANNEL.Value; CHANNEL.Lightness;
   CHANNEL.X; CHANNEL.Y; CHANNEL.Z;
   CHANNEL.L; CHANNEL.NL; CHANNEL.A; CHANNEL.B;
   CHANNEL.C; CHANNEL.H].

(** A dict display: items are inserted left to right, a repeated key keeps
    the last value. *)
Definition py_dict {V} (items : list (string * V)) : gmap string V :=
  fold_left (fun m kv => <[kv.1 := kv.2]> m) items ∅.

Definition DICT_peak_types_for_channel_items : list (string * Z) :=
  [(CHANNEL.Red, -1); (CHANNEL.Green, -1); (CHANNEL.Blue, -1);
   (CHANNEL.Hue, -1); (CHANNEL.Saturation, -1); (CHANNEL.Value, -1);
   (CHANNEL.Lightness, -1);
   (CHANNEL.X, -1); (CHANNEL.Y, -1); (CHANNEL.Z, -1);
   (CHANNEL.L, 1); (CHANNEL.A, -1); (CHANNEL.B, -1);
   (CHANNEL.C, -1); (CHANNEL.H, -1)]%Z.

Definition DICT_peak_types_for_channel : gmap string Z :=
  py_dict DICT_peak_types_for_channel_items.

(** The colour spaces and their default target channel. *)
Definition RGB := "RGB".
Definition BGR := "BGR".
Definition HSV := "HSV".
Definition HLS := "HSL".
Definition XYZ := "XYZ".
Definition LAB := "LAB".
Definition LCH := "LCH".

Definition DICT_default_target_channel : gmap string string :=
  py_dict [(RGB, CHANNEL.Green); (BGR, CHANNEL.Green);
           (HSV, CHANNEL.Saturation); (HLS, CHANNEL.Saturation);
           (LAB, CHANNEL.L); (LCH, CHANNEL.C); (XYZ, CHANNEL.Y)].

(** *** The ink tables *)

Module INK.
Definition Cyan : Z := 0.
Definition Magenta : Z := 1.
Definition Yellow : Z := 2.
Definition Black : Z := 3.
Definition Orange : Z := 4.
Definition Violet : Z := 5.
Definition Unknown : Z := -1.

Definition NameToIdent_items : list (string * Z) :=
  [("cyan", Cyan); ("Cyan", Cyan); ("C", Cyan); ("c", Cyan); ("0", Cyan);
   ("magenta", Magenta); ("Magenta", Magenta); ("M", Magenta); ("m", Magenta);
   ("1", Magenta);
   ("yellow", Yellow); ("Yellow", Yellow); ("Y", Yellow); ("y", Yellow);
   ("2", Yellow);
   ("black", Black); ("Black", Black); ("B", Black); ("b", Black); ("3", Black);
   ("orange", Orange); ("Orange", Orange); ("O", Orange); ("o", Orange);
   ("4", Orange);
   ("violet", Violet); ("Violet", Violet); ("V", Violet); ("v", Violet);
   ("5", Violet)].

Definition NameToIdent : gmap string Z := py_dict NameToIdent_items.

Definition IdentToName : gmap Z string :=
  fold_left (fun m kv => <[kv.1 := kv.2]> m)
    [(Cyan, "cyan"); (Magenta, "magenta"); (Yellow, "yellow");
     (Black, "black"); (Orange, "orange"); (Violet, "violet")] ∅.
End INK.

Definition DICT_fiery_channel_ident : gmap string Z :=
  py_dict [("cyan", 0); ("magenta", 1); ("yellow", 2);
           ("black", 3); ("orange", 4); ("violet", 5)]%Z.

(** [id = -1; try: id = INK.NameToIdent[name] except: id = -1;
     needsCstar = [2];
     return CHANNEL.C if id in needsCstar else CHANNEL.L] *)
Definition INK_NameToFocusChannelLCH (name : string) : string :=
  let id := match INK.NameToIdent !! name with
            | Some i => i
            | None => (-1)%Z
            end in
  let needsCstar := [2%Z] in
  if bool_decide (id ∈ needsCstar) then CHANNEL.C else CHANNEL.L.

End ColorSpace.

(** ** Common.py, class Plotting *)

Module Plotting.

(** [range(n)] *)
Definition range (n : nat) : list Z := map Z.of_nat (seq 0 n).

(** The default of [plotSetOfSignals] when [x_signal_set is None]:
    [[range(len(signal_set[0])) for signal in signal_set]].  The element
    expression is evaluated once per series, so an empty [signal_set]
    raises nothing. *)
Definition default_x_signal_set {T} (signal_set : list (list T)) : list (list Z) :=
  map (fun signal => range (length (nth 0 signal_set []))) signal_set.

(** The X-series the call [plt.plot(x_signal_set[signal], signal_set[signal])]
    receives for each series when no X-series were passed. *)
Definition plotted_x {T} (signal_set : list (list T)) (signal : nat) : option (list Z) :=
  default_x_signal_set signal_set !! signal.

(** Indices [0 .. len-1] of one series. *)
Definition own_indices {T} (series : list T) : list Z := range (length series).

(** *** The [alphas] argument and the plot calls of [plotSetOfSignals] *)

Inductive alphas_arg :=
| AlphasNone
| AlphasNumber (a : Q)
| AlphasList (l : list Q)
| AlphasOther.

(** [if not isinstance(alphas, list) or alphas is None:
       if isinstance(alphas, int) or isinstance(alphas, float):
           alphas = np.ones(len(signal_set)) * alphas
       else: alphas = np.ones(len(signal_set))
     elif len(alphas) != len(signal_set):
       alphas = np.ones(len(signal_set)) * alphas[0]];
    [None] is the [IndexError] of [alphas[0]]. *)
Definition normalise_alphas (n : nat) (alphas : alphas_arg) : option (list Q) :=
  match alphas with
  | AlphasList l =>
      if negb (length l =? n)%nat
      then a0 ← l !! 0%nat; Some (replicate n (1 * a0)%Q)
      else Some l
  | AlphasNumber a => Some (replicate n (1 * a)%Q)
  | AlphasNone | AlphasOther => Some (replicate n 1%Q)
  end.

(** One call [plt.plot(x, y, label=..., color=..., alpha=...)]. *)
Record plot_call (T : Type) := PlotCall {
  call_x : list Z;
  call_y : list T;
  call_label : string;
  call_color : string;
  call_alpha : Q
}.
Arguments PlotCall {T}.
Arguments call_x {T}.
Arguments call_y {T}.
Arguments call_label {T}.
Arguments call_color {T}.
Arguments call_alpha {T}.

(** [x_signal_set], defaulted when absent. *)
Definition x_signal_set_or_default {T} (signal_set : list (list T))
    (x_signal_set : option (list (list Z))) : list (list Z) :=
  match x_signal_set with
  | Some xs => xs
  | None => default_x_signal_set signal_set
  end.

(** The loop
    [for signal in range(len(signal_set)):
         plt.plot(x_signal_set[signal], signal_set[signal],
                  label=signal_names[signal], color=signal_colors[signal],
                  alpha=alphas[signal])]
    as the list of the calls made; [None] when an index is out of range or
    [signal_names] is [None] and is subscripted. *)
Definition plot_loop {T} (signal_set : list (list T)) (xs : list (list Z))
    (signal_names : option (list string)) (signal_colors : list string)
    (alphas : list Q) : option (list (plot_call T)) :=
  mapM (fun signal : nat =>
          x ← xs !! signal;
          y ← signal_set !! signal;
          names ← signal_names;
          label ← names !! signal;
          color ← signal_colors !! signal;
          alpha ← alphas !! signal;
          Some (PlotCall x y label color alpha))
       (seq 0 (length signal_set)).

(** [plotSetOfSignals] up to the first drawing call of the library. *)
Definition plotSetOfSignals {T} (signal_set : list (list T)) (signal_colors : list string)
    (x_signal_set : option (list (list Z))) (signal_names : option (list string))
    (alphas : alphas_arg) : option (list (plot_call T)) :=
  let xs := x_signal_set_or_default signal_set x_signal_set in
  alphas' ← normalise_alphas (length signal_set) alphas;
  plot_loop signal_set xs signal_names signal_colors alphas'.

End Plotting.

(** ** Python strings and the file system seen through [os] *)

Module Str.

Local Open Scope string_scope.

(** [sub in s] *)
Fixpoint str_in (sub s : string) : bool :=
  String.prefix sub s ||
  match s with
  | EmptyString => false
  | String _ s' => str_in sub s'
  end.

(** Position of the last occurrence of a character. *)
Fixpoint rfind_char (c : ascii) (s : string) : option nat :=
  match s with
  | EmptyString => None
  | String a s' =>
      match rfind_char c s' with
      | Some i => Some (S i)
      | None => if Ascii.eqb a c then Some O else None
      end
  end.

(** [s.rfind(c)]: the index, or [-1]. *)
Definition rfind (s : string) (c : ascii) : Z :=
  match rfind_char c s with
  | Some i => Z.of_nat i
  | None => -1
  end.

Fixpoint take (n : nat) (s : string) : string :=
  match n, s with
  | S n', String a s' => String a (take n' s')
  | _, _ => EmptyString
  end.

Fixpoint drop (n : nat) (s : string) : string :=
  match n, s with
  | S n', String _ s' => drop n' s'
  | _, _ => s
  end.

Definition slice_bound (len k : Z) : Z :=
  (if k <? 0 then Z.max (k + len) 0 else Z.min k len)%Z.

(** [s[:k]] and [s[k:]] *)
Definition slice_to (s : string) (k : Z) : string :=
  take (Z.to_nat (slice_bound (Z.of_nat (String.length s)) k)) s.

Definition slice_from (s : string) (k : Z) : string :=
  drop (Z.to_nat (slice_bound (Z.of_nat (String.length s)) k)) s.

(** [s.replace(a, b)] for single characters. *)
Fixpoint replace_char (a b : ascii) (s : string) : string :=
  match s with
  | EmptyString => EmptyString
  | String c s' => String (if Ascii.eqb c a then b else c) (replace_char a b s')
  end.

(** [s.split(sep)] for a one-character separator: never empty. *)
Fixpoint split (sep : ascii) (s : string) : list string :=
  match s with
  | EmptyString => [EmptyString]
  | String a s' =>
      if Ascii.eqb a sep then EmptyString :: split sep s'
      else match split sep s' with
           | h :: t => String a h :: t
           | [] => [String a EmptyString]
           end
  end.

(** [l[-1]] on the result of a split. *)
Definition last_part (l : list string) : string := List.last l EmptyString.

(** [s[0]]; [None] is the [IndexError] of the empty string. *)
Definition first_char (s : string) : option ascii :=
  match s with
  | EmptyString => None
  | String a _ => Some a
  end.

End Str.

Module Os.

Local Open Scope string_scope.

Inductive node :=
| File (content : string)
| Dir.

(** The directories that exist, by the path they are addressed with, each
    with its entries by name.  Paths are compared literally. *)
Abbreviation fs := (gmap string (gmap string node)).

(** What a Python call gives back: a value or an exception that leaves. *)
Inductive result (T : Type) :=
| Ret (v : T)
| Exc.
Arguments Ret {T} v.
Arguments Exc {T}.

(** Directory part and final component, split at the last [/]; a path
    without [/] names an entry of the current directory.  The split is
    literal: the directory part of ["/x"] is the empty path, where the
    system takes the root, and a path that ends in [/] has an empty final
    component. *)
Definition split (p : string) : string * string :=
  match Str.rfind_char "/" p with
  | Some i => (Str.take i p, Str.drop (S i) p)
  | None => (".", p)
  end.

Definition isdir (st : fs) (p : string) : bool :=
  bool_decide (is_Some (st !! p)).

(** [os.path.exists] *)
Definition path_exists (st : fs) (p : string) : bool :=
  isdir st p ||
  let '(d, n) := split p in
  match st !! d with
  | Some ents => bool_decide (is_Some (ents !! n))
  | None => false
  end.

(** [os.listdir]; [None] is the [OSError] of a missing directory. *)
Definition listdir (st : fs) (p : string) : option (list string) :=
  ents ← st !! p; Some (map_to_list ents).*1.

(** [os.mkdir]: the path must be new and its parent must exist. *)
Definition mkdir (st : fs) (p : string) : option fs :=
  if path_exists st p then None
  else
    let '(d, n) := split p in
    ents ← st !! d;
    Some (<[p := ∅]> (<[d := <[n := Dir]> ents]> st)).

(** [os.remove]: files only. *)
Definition remove (st : fs) (p : string) : option fs :=
  let '(d, n) := split p in
  ents ← st !! d;
  e ← ents !! n;
  match e with
  | File _ => Some (<[d := delete n ents]> st)
  | Dir => None
  end.

(** [os.rmdir]: empty directories only. *)
Definition rmdir (st : fs) (p : string) : option fs :=
  ents ← st !! p;
  if bool_decide (ents = (∅ : gmap string node))
  then let '(d, n) := split p in Some (alter (delete n) d (delete p st))
  else None.

(** [with open(p, "w") as file: file.write(text)] *)
Definition write_file (st : fs) (p text : string) : option fs :=
  let '(d, n) := split p in
  ents ← st !! d;
  match ents !! n with
  | Some Dir => None
  | _ => Some (<[d := <[n := File text]> ents]> st)
  end.

(** [with open(p) as file: file.read()]; [None] is the [OSError] of a
    missing file or of a directory. *)
Definition read_file (st : fs) (p : string) : option string :=
  let '(d, n) := split p in
  ents ← st !! d;
  e ← ents !! n;
  match e with
  | File text => Some text
  | Dir => None
  end.

(** The entry is there and is a regular file. *)
Definition is_file (e : option node) : bool :=
  match e with
  | Some (File _) => true
  | _ => false
  end.

(** A sample state: a working directory holding the directory [out]. *)
Definition cwd_with_out : fs :=
  {[ "." := {[ "out" := Dir ]}; "./out" := ∅ ]}.

(** A sample state: [./out/temp] holding the file [a.txt]. *)
Definition out_with_temp_file : fs :=
  {[ "." := {[ "out" := Dir ]};
     "./out" := {[ "temp" := Dir ]};
     "./out/temp" := {[ "a.txt" := File "x" ]} ]}.

End Os.

(** ** Common.py, class FileManagement *)

Module FileManagement.

Import Os.
Local Open Scope string_scope.

Definition TEMP_SUBDIR_NAME : string := "temp".

(** [_path = path[:]; if "." in path[path.rfind("/"):]: _path = path[:path.rfind('/')]] *)
Definition get_dir_from_filepath (path : string) : string :=
  if Str.str_in "." (Str.slice_from path (Str.rfind path "/"))
  then Str.slice_to path (Str.rfind path "/")
  else path.

(** Returns the directory path, [None] when the creation failed. *)
Definition create_dir_if_not_exists (st : fs) (dir_path : string) : fs * option string :=
  let _path := get_dir_from_filepath dir_path in
  if negb (path_exists st _path)
  then match mkdir st _path with
       | Some st' => (st', Some _path)
       | None => (st, None)
       end
  else (st, Some _path).

Definition path_to_python (path : string) : string :=
  Str.replace_char "\" "/" path.

Definition temp_dir_of (path : string) (custom_subdir_name : option string) : string :=
  match custom_subdir_name with
  | Some c => path ++ "/" ++ c
  | None => path ++ "/" ++ TEMP_SUBDIR_NAME
  end.

(** [now] is the reading of [TimeStamp.formatted()] at the call. *)
Definition create_temp_folder (st : fs) (now : string)
    (path : string) (custom_subdir_name : option string) : fs * (string * string) :=
  let temp_dir := temp_dir_of path custom_subdir_name in
  let '(st', _) := create_dir_if_not_exists st temp_dir in
  (st', (temp_dir, now)).

(** The loop [for file in temp_files_list: try: os.remove(...) except: ...] *)
Definition remove_each (temp_dir : string) (files : list string) (st : fs) : fs :=
  fold_left
    (fun st file =>
       match remove st (temp_dir ++ "/" ++ file) with
       | Some st' => st'
       | None => st
       end)
    files st.

Definition delete_temp_files (st : fs) (path : string)
    (time_stamp custom_subdir_name : option string) : fs * result Z :=
  let temp_dir := temp_dir_of path custom_subdir_name in
  match listdir st temp_dir with
  | None => (st, Ret (-1))
  | Some entries =>
      let temp_files_list := filter (fun x => Str.str_in "." x = true) entries in
      if (length temp_files_list =? 0)%nat then (st, Ret 1)
      else
        let selected :=
          match time_stamp with
          | Some ts => filter (fun x => Str.str_in ts x = true) temp_files_list
          | None => temp_files_list
          end in
        if (bool_decide (is_Some time_stamp) && (length selected =? 0)%nat)%bool
        then (st, Ret 1)
        else
          let st1 := remove_each temp_dir selected st in
          match listdir st1 temp_dir with
          | None => (st1, Exc)
          | Some rest =>
              if (length rest =? 0)%nat
              then match rmdir st1 temp_dir with
                   | Some st2 => (st2, Ret 2)
                   | None => (st1, Ret (-1))
                   end
              else (st1, Ret 0)
          end
  end.

(** The final segment [isFile] and [getFileExtension] look at:
    [path.split("/")[-1]] when the path holds a [/], else
    [path.split("\\")[-1]] when it holds a backslash, else nothing. *)
Definition final_segment (path : string) : option string :=
  if Str.str_in "/" path then Some (Str.last_part (Str.split "/" path))
  else if Str.str_in "\" path then Some (Str.last_part (Str.split "\" path))
  else None.

Definition isFile (st : fs) (path : string) : bool * Z :=
  match final_segment path with
  | None => (false, -1)
  | Some _final_dir =>
      if negb (path_exists st path) then (false, -1)
      else if Str.str_in "." _final_dir then (true, 0)
      else (false, 0)
  end.

(** [ret = cls.isFile(path); if ret[1] >= 0: ret = (not ret[0], ret[1])] *)
Definition isFolder (st : fs) (path : string) : bool * Z :=
  let ret := isFile st path in
  if (0 <=? ret.2)%Z then (negb ret.1, ret.2) else ret.

(** [None] is the absent result returned with a warning. *)
Definition getFileExtension (st : fs) (path : string) : option string :=
  if negb (isFile st path).1 then None
  else
    let file := match final_segment path with
                | Some f => f
                | None => path
                end in
    Some (Str.last_part (Str.split "." file)).

(** [getFileExtension(path) in validExtensions], for a list of strings. *)
Definition checkFileIsValid (st : fs) (path : string) (validExtensions : list string) : bool :=
  match getFileExtension st path with
  | Some ext => bool_decide (ext ∈ validExtensions)
  | None => false
  end.

(** The entries [delete_temp_files] goes for: regular files with a dot in
    the name and, when a timestamp is given, the timestamp in the name. *)
Definition targeted (time_stamp : option string) (ents : gmap string node) (n : string) : bool :=
  is_file (ents !! n) && Str.str_in "." n &&
  match time_stamp with
  | Some ts => Str.str_in ts n
  | None => true
  end.

(** The scenario of the temp-folder life cycle: create the temp folder of
    [path], write one file [name] into it, clean up twice with no
    timestamp.  Returns the two statuses and whether the temp folder still
    exists after the first clean-up; [None] when the file cannot be
    written. *)
Definition temp_folder_lifecycle (st : fs) (now path name text : string)
    : option (result Z * bool * result Z) :=
  let '(st1, (temp_dir, _)) := create_temp_folder st now path None in
  st2 ← write_file st1 (temp_dir ++ "/" ++ name) text;
  let '(st3, first) := delete_temp_files st2 path None None in
  let '(_, second) := delete_temp_files st3 path None None in
  Some (first, path_exists st3 temp_dir, second).

End FileManagement.

(** ** Common.py, class Serializable *)

Module Serializable.

Import Os.
Local Open Scope string_scope.

(** [to_file]; [json] is the text [self.serialize()] produces.  The result
    is [None] for the refusal and the path after a write; [os.mkdir] and
    [open] are not guarded. *)
Definition to_file (st : fs) (json : string) (file_path : string)
    : fs * result (option string) :=
  let file_path := FileManagement.path_to_python file_path in
  if negb (Str.str_in "." file_path) then (st, Ret None)
  else
    let dir_path := Str.slice_to file_path (Str.rfind file_path "/") in
    let made := if negb (path_exists st dir_path) then mkdir st dir_path else Some st in
    match made with
    | None => (st, Exc)
    | Some st1 =>
        match write_file st1 file_path json with
        | Some st2 => (st2, Ret (Some file_path))
        | None => (st1, Exc)
        end
    end.

(** The final path segment carries an extension: the test that
    [get_dir_from_filepath] and [isFile] apply, on the text after the last
    separator. *)
Definition has_file_extension (file_path : string) : bool :=
  Str.str_in "." (split (FileManagement.path_to_python file_path)).2.

(** *** [exclude_private]

    [self.__dict__] as the ordered list of its items. *)

(** [[key for key, val in d.items() if key[0] == "_"]]; the empty key
    raises. *)
Fixpoint keys_to_pop {V} (d : list (string * V)) : option (list string) :=
  match d with
  | [] => Some []
  | (key, _) :: d' =>
      c ← Str.first_char key;
      rest ← keys_to_pop d';
      Some (if Ascii.eqb c "_" then key :: rest else rest)
  end.

(** [d.pop(key)]; [None] is the [KeyError] of a missing key. *)
Definition dict_pop {V} (key : string) (d : list (string * V)) : option (list (string * V)) :=
  if bool_decide (key ∈ d.*1)
  then Some (filter (fun kv => kv.1 <> key) d)
  else None.

Fixpoint pop_all {V} (keys : list string) (d : list (string * V)) : option (list (string * V)) :=
  match keys with
  | [] => Some d
  | key :: keys' => d' ← dict_pop key d; pop_all keys' d'
  end.

(** [no_private = self.__dict__.copy(); keys_to_pop = ...;
     for key in keys_to_pop: no_private.pop(key); return no_private] *)
Definition exclude_private {V} (__dict__ : list (string * V)) : option (list (string * V)) :=
  keys ← keys_to_pop __dict__;
  pop_all keys __dict__.

Definition is_private (key : string) : bool :=
  match Str.first_char key with
  | Some c => Ascii.eqb c "_"
  | None => false
  end.

(** *** [from_file] of the base class

    [json_loads] stands for [json.loads]: the parsed value, or [None] when
    it raises.  The base [from_dict] logs a warning and returns [None]. *)
Definition from_dict {J Obj} (src : J) : option Obj := None.

(** [deserialize]: [cls.from_dict(json.loads(json_string))]. *)
Definition deserialize {J Obj} (json_loads : string -> option J) (json_string : string)
    : result (option Obj) :=
  match json_loads json_string with
  | Some v => Ret (from_dict v)
  | None => Exc
  end.

Definition from_file {J Obj} (json_loads : string -> option J) (st : fs) (json_file_path : string)
    : result (option Obj) :=
  match read_file st (FileManagement.path_to_python json_file_path) with
  | None => Ret None
  | Some json_string =>
      let json_obj := match deserialize json_loads json_string with
                      | Ret o => o
                      | Exc => None
                      end in
      match json_obj with
      | None => Ret None
      | Some o => Ret (Some o)
      end
  end.

End Serializable.

(** ** p1.py: the power-law point transforms, over the reals *)

Module P1.

Local Open Scope R_scope.

(** The two formulas over the reals, for a positive intensity: the value
    the code's binary64 expression approximates, without its rounding,
    overflow and underflow.

    [(im ** float(p)) / (255 ** (p - 1))] *)
Definition darkenImg (im p : R) : R := Rpower im p / Rpower 255 (p - 1).

(** [np.power(255.0 ** (p - 1) * im, 1. / p)] *)
Definition brightenImg (im p : R) : R := Rpower (Rpower 255 (p - 1) * im) (1 / p).

(** The same transforms at [p = 2] on binary64 values, every operation
    correctly rounded: [im ** 2.0] as the product [im * im], [255 ** 1] as
    255, and [np.power(x, 0.5)] as the square root. *)
Definition b64 (z : Z) : spec_float := binary_normalize 53 1024 z 0 false.

Definition darkenImg_b64 (im : spec_float) : spec_float :=
  SFdiv 53 1024 (SFmul 53 1024 im im) (b64 255).

Definition brightenImg_b64 (im : spec_float) : spec_float :=
  SFsqrt 53 1024 (SFmul 53 1024 (b64 255) im).

(** The grey levels strictly between 0 and 255 of an 8-bit image. *)
Definition interior_levels : list Z := map Z.of_nat (seq 1 254).

(** *** [histeq] on an image of integer grey levels *)

Local Open Scope Z_scope.

(** [np.histogram(data, edges)] for integer data and edges: bin [k] is
    [edges[k] <= v < edges[k+1]], the last bin also takes [edges[-1]];
    values outside the edges are not counted. *)
Definition in_bin (edges : list Z) (k : nat) (v : Z) : bool :=
  match edges !! k, edges !! S k with
  | Some lo, Some hi =>
      (lo <=? v) && ((v <? hi) || ((S (S k) =? length edges)%nat && (v =? hi)))
  | _, _ => false
  end.

Definition np_histogram (data edges : list Z) : list Z :=
  map (fun k => Z.of_nat (length (filter (fun v => in_bin edges k v = true) data)))
      (seq 0 (length edges - 1)).

(** [a.cumsum()] *)
Fixpoint cumsum_from (acc : Z) (a : list Z) : list Z :=
  match a with
  | [] => []
  | x :: a' => (acc + x) :: cumsum_from (acc + x) a'
  end.

Definition cumsum (a : list Z) : list Z := cumsum_from 0 a.

(** [np.interp(x, xp, fp)] on binary64 values, for increasing [xp]: nan
    for a nan [x]; [fp[0]] to the left of [xp[0]] and [fp[-1]] to the right
    of [xp[-1]]; [fp[j]] at a sample point [xp[j]]; in between, with [j]
    the last sample point not above [x],
    [slope*(x - xp[j]) + fp[j]] for
    [slope = (fp[j+1] - fp[j]) / (xp[j+1] - xp[j])], and when that is nan
    the same from the right end of the interval. *)
Fixpoint interp_from (x x0 y0 : spec_float) (points : list (spec_float * spec_float))
    : spec_float :=
  match points with
  | [] => y0
  | (x1, y1) :: rest =>
      if SFleb x1 x then interp_from x x1 y1 rest
      else if SFeqb x0 x then y0
      else
        let slope := SFdiv 53 1024 (SFsub 53 1024 y1 y0) (SFsub 53 1024 x1 x0) in
        let r := SFadd 53 1024 (SFmul 53 1024 slope (SFsub 53 1024 x x0)) y0 in
        if MathAndStatistics.is_nan r then
          let r' := SFadd 53 1024 (SFmul 53 1024 slope (SFsub 53 1024 x x1)) y1 in
          if MathAndStatistics.is_nan r' && SFeqb y0 y1 then y0 else r'
        else r
  end.

(** [None] is the [ValueError] of an empty [xp] or of [xp] and [fp] of
    different lengths. *)
Definition np_interp (x : spec_float) (xp fp : list spec_float) : option spec_float :=
  if negb (length xp =? length fp)%nat then None
  else
    match zip xp fp with
    | [] => None
    | (x0, y0) :: points =>
        Some (if MathAndStatistics.is_nan x then x
              else if SFltb x x0 then y0
              else interp_from x x0 y0 points)
    end.

(** [imhist, bins = np.histogram(im.flatten(), list(range(nbins)));
     cdf = imhist.cumsum(); factor = 255 / cdf[-1];
     im2 = np.interp(im.flatten(), bins[:-1], factor*cdf);
     return im2.reshape(im.shape), cdf]
    on the flattened image.  The histogram and [cdf] are integers; [factor],
    [factor*cdf] and the interpolation are binary64.  [None] is the
    [IndexError] of [cdf[-1]] on an empty [cdf]; when [cdf[-1]] is 0 the
    factor is infinite and [factor*cdf] is nan. *)
Definition histeq (im : list Z) (nbins : nat) : option (list spec_float * list Z) :=
  let bins := map Z.of_nat (seq 0 nbins) in
  let imhist := np_histogram im bins in
  let cdf := cumsum imhist in
  total ← last cdf;
  let factor := SFdiv 53 1024 (b64 255) (b64 total) in
  let xp := map b64 (removelast bins) in
  let fp := map (fun c => SFmul 53 1024 factor (b64 c)) cdf in
  im2 ← mapM (fun v => np_interp (b64 v) xp fp) im;
  Some (im2, cdf).

(** The bin of a grey level in [0, nbins-1]: its own, the last one for the
    top level. *)
Definition bin_of (nbins : nat) (v : Z) : Z := Z.min v (Z.of_nat nbins - 2).

End P1.


(** * Properties *)

(** ** [poly_eval] *)

Section PolyEval.

Import MathAndStatistics.

Lemma poly_eval_snoc (coefs : list Z) (a x : Z) :
  poly_eval (coefs ++ [a]) x = poly_eval coefs x * x + a.
Proof. unfold poly_eval. now rewrite fold_left_app. Qed.

Lemma sum_map_scale (f g : nat -> Z) (x : Z) (l : list nat) :
  (forall i, In i l -> f i = g i * x) ->
  fold_right Z.add 0 (map f l) = fold_right Z.add 0 (map g l) * x.
Proof.
  induction l as [|i l IH]; intros Hfg; simpl.
  - reflexivity.
  - rewrite Hfg by (left; reflexivity).
    rewrite IH by (intros j Hj; apply Hfg; right; exact Hj).
    ring.
Qed.

Lemma poly_term_snoc_old (coefs : list Z) (a x : Z) (i : nat) :
  (i < length coefs)%nat ->
  poly_term (coefs ++ [a]) x i = poly_term coefs x i * x.
Proof.
  intros Hi. unfold poly_term.
  rewrite app_nth1 by exact Hi.
  rewrite length_app. simpl.
  replace (Z.of_nat (length coefs + 1 - 1 - i))
    with (Z.of_nat (length coefs - 1 - i) + 1) by lia.
  rewrite Z.pow_add_r by lia.
  ring.
Qed.

Lemma poly_term_snoc_new (coefs : list Z) (a x : Z) :
  poly_term (coefs ++ [a]) x (length coefs) = a.
Proof.
  unfold poly_term.
  rewrite app_nth2 by lia.
  rewrite Nat.sub_diag, length_app. simpl.
  replace (length coefs + 1 - 1 - length coefs)%nat with O by lia.
  rewrite Nat2Z.inj_0, Z.pow_0_r. ring.
Qed.

Lemma poly_sum_snoc (coefs : list Z) (a x : Z) :
  poly_sum (coefs ++ [a]) x = poly_sum coefs x * x + a.
Proof.
  unfold poly_sum.
  rewrite length_app. simpl length.
  rewrite Nat.add_1_r, seq_S, map_app, fold_right_app. simpl.
  rewrite poly_term_snoc_new, Z.add_0_r.
  assert (Hshift : forall (l : list Z) (c : Z),
             fold_right Z.add c l = fold_right Z.add 0 l + c).
  { induction l as [|y l IH]; intros c; simpl; [lia|]. rewrite IH. lia. }
  rewrite Hshift.
  f_equal.
  apply sum_map_scale.
  intros i Hi. apply in_seq in Hi.
  apply poly_term_snoc_old. lia.
Qed.

Lemma poly_eval_is_poly_sum (coefs : list Z) (x : Z) :
  poly_eval coefs x = poly_sum coefs x.
Proof.
  induction coefs as [|a coefs IH] using rev_ind.
  - reflexivity.
  - now rewrite poly_eval_snoc, poly_sum_snoc, IH.
Qed.

(** C7: [poly_eval] is Horner's rule, started at 0 and folding
    [y*x + a] over the coefficients in order; it equals the polynomial
    sum with the coefficients ordered from the highest power to the
    constant term; [[1, -3, 2]] at 5 gives 12; the empty list gives 0 at
    every [x]. *)
Theorem poly_eval_horner :
  (forall x, poly_eval [] x = 0) /\
  (forall coefs a x, poly_eval (coefs ++ [a]) x = poly_eval coefs x * x + a) /\
  (forall coefs x, poly_eval coefs x = poly_sum coefs x) /\
  poly_eval [1; -3; 2] 5 = 12.
Proof.
  split; [reflexivity|].
  split; [exact poly_eval_snoc|].
  split; [exact poly_eval_is_poly_sum|].
  reflexivity.
Qed.

End PolyEval.

(** ** The value-iteration script *)

Section VnStarFacts.

Import VnStar.

Lemma while_loop_exit (fuel : nat) :
  forall VnList out,
    while_loop fuel VnList = Done out ->
    exists a b, last1 out = Some a /\ last2 out = Some b /\ list_eqb a b = true.
Proof.
  induction fuel as [|fuel IH]; intros VnList out H; simpl in H.
  - discriminate.
  - destruct (last1 VnList) as [a|] eqn:Ea; [|discriminate].
    destruct (last2 VnList) as [b|] eqn:Eb; [|discriminate].
    destruct (list_eqb a b) eqn:Eab; simpl in H.
    + injection H as <-. eauto.
    + destruct (v_next a) as [v|]; [|discriminate].
      eapply IH; eassumption.
Qed.

Lemma script_runs (fuel : nat) :
  script fuel = if (fuel <? 6)%nat then OutOfFuel else Done VnList_final.
Proof.
  do 6 (destruct fuel as [|fuel]; [vm_compute; reflexivity|]).
  vm_compute. reflexivity.
Qed.

(** C1, amended: with enough fuel the script ends, on two consecutive
    vectors that are element-wise equal; the last vector equals
    [[0.0625, 0.125, 0.25, 0.5, 1.0]]; [VnList] then holds 7 vectors and the
    reported count [len(VnList) - 2] is 5. *)
Theorem vn_star_converges (fuel : nat) :
  (6 <= fuel)%nat ->
  exists VnList v w,
    script fuel = Done VnList /\
    last1 VnList = Some v /\ last2 VnList = Some w /\ list_eqb v w = true /\
    Vstar VnList = Some v /\ list_eqb v V_expected = true /\
    length VnList = 7%nat /\
    iterations VnList = 5.
Proof.
  intros Hfuel.
  rewrite script_runs.
  destruct (Nat.ltb_spec fuel 6) as [Hlt|_]; [lia|].
  exists VnList_final, V_final, V_final.
  repeat split; vm_compute; reflexivity.
Qed.

Lemma vn_star_converges_witness :
  (6 <= 6)%nat /\
  exists VnList v w,
    script 6 = Done VnList /\
    last1 VnList = Some v /\ last2 VnList = Some w /\ list_eqb v w = true /\
    Vstar VnList = Some v /\ list_eqb v V_expected = true /\
    length VnList = 7%nat /\
    iterations VnList = 5.
Proof. split; [lia | apply (vn_star_converges 6); lia]. Defined.

(** C1 as stated fails: no run of the script reports 4 iterations. *)
Lemma vn_star_count_is_not_4 :
  ~ (exists fuel VnList, script fuel = Done VnList /\ iterations VnList = 4).
Proof.
  intros (fuel & VnList & Hrun & Hcount).
  rewrite script_runs in Hrun.
  destruct (fuel <? 6)%nat; [discriminate|].
  injection Hrun as <-.
  vm_compute in Hcount. discriminate.
Qed.

End VnStarFacts.

(** ** The exercise script [0201_numpy.py] *)

Section Ej0201Facts.

Import Ej0201.

Lemma dispatch_on_number (k : Z) :
  match Some k with
  | Some 2 => ([ej2_pandas_call], 0)
  | _ => ([ej1_nodos_call], 0)
  end = (if k =? 2 then [ej2_pandas_call] else [ej1_nodos_call], 0).
Proof.
  destruct (Z.eqb_spec k 2) as [->|Hne]; [reflexivity|].
  destruct k as [|[[]|[]|]|]; try reflexivity; congruence.
Qed.

(** C2, amended: with [-n k] (or [--number k]) the script runs only the
    tabular demonstration when [k] is 2 and only the graph-ranking
    demonstration for every other integer; with no argument at all
    [args.number] is [None] and the graph-ranking demonstration runs, the
    script ending normally. *)
Theorem cli_dispatch (s : string) (k : Z) :
  py_int s = Some k ->
  main ["-n"%string; s] = (if k =? 2 then [ej2_pandas_call] else [ej1_nodos_call], 0) /\
  main ["--number"%string; s] = (if k =? 2 then [ej2_pandas_call] else [ej1_nodos_call], 0) /\
  main [] = ([ej1_nodos_call], 0).
Proof.
  intros Hs.
  assert (Hn : loadArgs ["-n"%string; s] = Namespace (Some k)).
  { unfold loadArgs. cbn [parse_args]. cbv [String.eqb Ascii.eqb Bool.eqb orb].
    now rewrite Hs. }
  assert (Hl : loadArgs ["--number"%string; s] = Namespace (Some k)).
  { unfold loadArgs. cbn [parse_args]. cbv [String.eqb Ascii.eqb Bool.eqb orb].
    now rewrite Hs. }
  unfold main. rewrite Hn, Hl, dispatch_on_number.
  repeat split; reflexivity.
Qed.

Lemma cli_dispatch_witness :
  py_int "2" = Some 2 /\
  (main ["-n"%string; "2"%string]
     = (if 2 =? 2 then [ej2_pandas_call] else [ej1_nodos_call], 0) /\
   main ["--number"%string; "2"%string]
     = (if 2 =? 2 then [ej2_pandas_call] else [ej1_nodos_call], 0) /\
   main [] = ([ej1_nodos_call], 0)).
Proof. split; [reflexivity | apply (cli_dispatch "2" 2); reflexivity]. Defined.

(** C2 as stated fails: without the flag nothing fails, [ej1_nodos] runs. *)
Lemma cli_without_flag_does_not_fail :
  main [] = ([ej1_nodos_call], 0) /\ ~ fails_before_demo (main []).
Proof.
  split; [reflexivity|].
  intros [Hnone _]. discriminate Hnone.
Qed.

(** The entry of a masked-out position is the zero [np.zeros] put there,
    whatever the solver returned. *)
Lemma scatter_masked (mask : list bool) :
  forall (x full_x : list Q) (k : nat),
    scatter mask x = Some full_x ->
    mask !! k = Some false -> full_x !! k = Some 0%Q.
Proof.
  induction mask as [|b mask IH]; intros x full_x k Hs Hk.
  - discriminate.
  - assert (Htail : forall v y, cons v <$> scatter mask y = Some full_x ->
                      exists t, full_x = v :: t /\ scatter mask y = Some t).
    { intros v y H. destruct (scatter mask y) as [t|]; [|discriminate].
      injection H as <-. eauto. }
    destruct b; simpl in Hs.
    + destruct x as [|v x]; [discriminate|].
      destruct (Htail _ _ Hs) as (t & -> & Ht).
      destruct k as [|k]; [discriminate|]. simpl in *. eapply IH; eassumption.
    + destruct (Htail _ _ Hs) as (t & -> & Ht).
      destruct k as [|k]; [reflexivity|]. simpl in *. eapply IH; eassumption.
Qed.

Lemma make_mask_objective (n k : nat) :
  (k < n)%nat -> make_mask n k !! k = Some false.
Proof.
  intros Hk. unfold make_mask.
  apply list_lookup_insert_eq. now rewrite length_replicate.
Qed.

(** C5: for the fixed graph, the reduced system is solved (the solution
    satisfies [L_reduced . x = 1]), the reconstructed vector has exactly 0
    at index 1, every other entry is positive, and the ranking by
    ascending value starts with index 1. *)
Theorem ej1_nodos_ranking :
  let mask := make_mask 5 objective_node in
  let L_reduced := reduce mask (mat_sub (diag (degrees A)) A) in
  exists x full_x ranking,
    solve L_reduced (replicate 4 1%Q) = Some x /\
    Forall2 Qeq (mat_vec L_reduced x) (replicate 4 1%Q) /\
    ej1_nodos = Some (full_x, ranking) /\
    scatter mask x = Some full_x /\
    full_x !! 1%nat = Some 0%Q /\
    (forall i v, full_x !! i = Some v -> i <> 1%nat -> (0 < v)%Q) /\
    ranking = argsort full_x /\
    ranking !! 0%nat = Some 1%nat.
Proof.
  intros mask L_reduced.
  exists [53 # 121; 50 # 121; 57 # 121; 178 # 121]%Q.
  exists [53 # 121; 0; 50 # 121; 57 # 121; 178 # 121]%Q.
  exists [1; 2; 0; 3; 4]%nat.
  assert (Hfull : scatter mask [53 # 121; 50 # 121; 57 # 121; 178 # 121]%Q
                  = Some [53 # 121; 0; 50 # 121; 57 # 121; 178 # 121]%Q)
    by (vm_compute; reflexivity).
  split; [vm_compute; reflexivity|].
  split; [repeat constructor|].
  split; [vm_compute; reflexivity|].
  split; [exact Hfull|].
  split.
  { eapply scatter_masked; [exact Hfull|].
    apply make_mask_objective. unfold objective_node. lia. }
  split; [|split; vm_compute; reflexivity].
  intros i v Hv Hi.
  do 5 (destruct i as [|i]; [simpl in Hv; injection Hv as <-; try congruence; reflexivity|]).
  discriminate Hv.
Qed.

End Ej0201Facts.

(** ** The colour-space catalogue *)

Section ColorSpaceFacts.

Import ColorSpace.

Lemma peak_table_keys_distinct :
  NoDup (DICT_peak_types_for_channel_items.*1).
Proof.
  apply NoDup_ListNoDup.
  repeat (constructor; [vm_compute; intro H; repeat (destruct H as [H|H]; [discriminate H|]); exact H|]).
  constructor.
Qed.

(** C8 on the code: the sixteen channel constants include [NL = "nL*"],
    the table has fifteen entries with distinct keys, none of them for
    ["nL*"]; every other channel has its entry, 1 for ["L*"] and -1 for the
    rest. *)
Theorem peak_table_misses_nL :
  CHANNEL.NL ∈ CHANNEL_values /\
  DICT_peak_types_for_channel !! CHANNEL.NL = None /\
  size DICT_peak_types_for_channel = 15%nat /\
  DICT_peak_types_for_channel !! CHANNEL.L = Some 1 /\
  Forall (fun c => c = CHANNEL.NL \/
                   DICT_peak_types_for_channel !! c
                   = Some (if String.eqb c CHANNEL.L then 1 else -1))
         CHANNEL_values.
Proof.
  split; [unfold CHANNEL_values; set_solver|].
  split; [vm_compute; reflexivity|].
  split; [vm_compute; reflexivity|].
  split; [vm_compute; reflexivity|].
  unfold CHANNEL_values.
  repeat (apply Forall_cons; split; [first [right; vm_compute; reflexivity | left; reflexivity]|]).
  apply Forall_nil. trivial.
Qed.

End ColorSpaceFacts.

(** ** The plotting helper *)

Section PlottingFacts.

Import Plotting.

(** Whatever the series, the default X-series is built from the first
    one. *)
Lemma plotted_x_first_series {T} (signal_set : list (list T)) (i : nat) (series : list T) :
  signal_set !! i = Some series ->
  plotted_x signal_set i = Some (own_indices (nth 0 signal_set [])).
Proof.
  intros Hi. unfold plotted_x, default_x_signal_set.
  rewrite list_lookup_fmap, Hi. reflexivity.
Qed.

(** C9 on the code: for two series of lengths 3 and 2 and no X-series
    given, the second series is plotted against [0, 1, 2], the indices of
    the first series, not against its own indices [0, 1]. *)
Theorem default_x_uses_first_series :
  plotted_x [[1; 2; 3]; [4; 5]] 1 = Some [0; 1; 2] /\
  own_indices [4; 5] = [0; 1] /\
  plotted_x [[1; 2; 3]; [4; 5]] 1 <> Some (own_indices [4; 5]).
Proof.
  split; [reflexivity|].
  split; [reflexivity|].
  vm_compute. discriminate.
Qed.

End PlottingFacts.

(** ** [Serializable.to_file] *)

Section SerializableFacts.

Import Os Serializable.

(** C10 on the code: ["./out/data"] has no file extension, yet [to_file]
    does not refuse it: the dot of ["./"] passes the test, the file is
    written and the path returned.  And for ["data.json"], which has no
    [/], the directory created is ["data.jso"], not a parent directory. *)
Theorem to_file_accepts_path_without_extension :
  has_file_extension "./out/data" = false /\
  to_file cwd_with_out "{}" "./out/data"
    = (<["./out"%string := {[ "data"%string := File "{}" ]}]> cwd_with_out,
       Ret (Some "./out/data"%string)) /\
  has_file_extension "data.json" = true /\
  to_file cwd_with_out "{}" "data.json"
    = (<["data.jso"%string := ∅]>
         (<["."%string := {[ "out"%string := Dir; "data.jso"%string := Dir;
                             "data.json"%string := File "{}" ]}]> cwd_with_out),
       Ret (Some "data.json"%string)).
Proof.
  repeat split; vm_compute; reflexivity.
Qed.

End SerializableFacts.

(** ** [remove_outliers_from_signal] on constant signals *)

Section OutlierFacts.

Import MathAndStatistics.

(** *** Exact operations of binary64 *)

Lemma bounded_cases (m : positive) (e : Z) :
  bounded 53 1024 m e = true ->
  e <= 971 /\
  fexp 53 1024 (Z.pos (digits2_pos m) + e) = e /\
  ((Z.pos (digits2_pos m) = 53 /\ -1074 <= e) \/
   (e = -1074 /\ Z.pos (digits2_pos m) <= 53)).
Proof.
  unfold bounded, canonical_mantissa. intros H.
  apply andb_true_iff in H as [Hc He].
  apply Z.eqb_eq in Hc. apply Z.leb_le in He.
  split; [lia|]. split; [exact Hc|].
  unfold fexp, emin in Hc. lia.
Qed.

(** Rounding a canonical mantissa leaves it as it is. *)
Lemma round_exact0 (s : bool) (m : positive) (e : Z) :
  bounded 53 1024 m e = true ->
  binary_round_aux 53 1024 s (Z.pos m) e loc_Exact = S754_finite s m e.
Proof.
  intros H. destruct (bounded_cases m e H) as (He & Hc & _).
  unfold binary_round_aux, shr_fexp. cbn [Zdigits2 shr_record_of_loc].
  rewrite Hc, Z.sub_diag. cbn [shr shr_m loc_of_shr_record round_nearest_even].
  cbn [Zdigits2 shr_record_of_loc]. rewrite Hc, Z.sub_diag. cbn [shr shr_m].
  assert (Hle : (e <=? 1024 - 53) = true) by (apply Z.leb_le; lia).
  now rewrite Hle.
Qed.

(** The same for a mantissa given with one more binary digit. *)
Lemma round_exact1 (s : bool) (m : positive) (e : Z) :
  bounded 53 1024 m e = true ->
  binary_round_aux 53 1024 s (Z.pos m~0) (e - 1) loc_Exact = S754_finite s m e.
Proof.
  intros H. destruct (bounded_cases m e H) as (He & Hc & _).
  unfold binary_round_aux at 1, shr_fexp at 1. cbn [Zdigits2 shr_record_of_loc digits2_pos].
  replace (Z.pos (Pos.succ (digits2_pos m)) + (e - 1))
    with (Z.pos (digits2_pos m) + e) by lia.
  rewrite Hc. replace (e - (e - 1)) with 1 by lia.
  cbn [shr].
  change (SpecFloat.iter_pos shr_1 1 {| shr_m := Z.pos m~0; shr_r := false; shr_s := false |})
    with {| shr_m := Z.pos m; shr_r := false; shr_s := false |}.
  cbn [shr_m loc_of_shr_record round_nearest_even].
  replace (e - 1 + 1) with e by lia.
  unfold shr_fexp. cbn [Zdigits2 shr_record_of_loc]. rewrite Hc, Z.sub_diag. cbn [shr shr_m].
  assert (Hle : (e <=? 1024 - 53) = true) by (apply Z.leb_le; lia).
  now rewrite Hle.
Qed.

Lemma bounded_intro (m : positive) (e : Z) :
  e <= 971 ->
  fexp 53 1024 (Z.pos (digits2_pos m) + e) = e ->
  bounded 53 1024 m e = true.
Proof.
  intros He Hc. unfold bounded, canonical_mantissa.
  apply andb_true_iff. split; [apply Z.eqb_eq; exact Hc | apply Z.leb_le; lia].
Qed.

Lemma div_eucl_exact (q b : Z) : 0 < b -> Z.div_eucl (q * b) b = (q, 0).
Proof.
  intros Hb.
  assert (H : Z.div_eucl (q * b) b = (q * b / b, (q * b) mod b)).
  { unfold Z.div, Z.modulo. destruct (Z.div_eucl (q * b) b). reflexivity. }
  rewrite H, Z.div_mul, Z.mod_mul by lia. reflexivity.
Qed.

(** The division of a mantissa by a power of two, given as the mantissa
    [2^52], when the shifted dividend is a multiple of [2^52]. *)
Lemma SFdiv_core_pow2 (M q : positive) (e ey e' sh : Z) :
  Z.min (fexp 53 1024 (Z.pos (digits2_pos M) + e - (53 + ey))) (e - ey) = e' ->
  e - ey - e' = sh ->
  0 < sh ->
  Z.pos M * 2 ^ sh = Z.pos q * 4503599627370496 ->
  SFdiv_core_binary 53 1024 (Z.pos M) e 4503599627370496 ey = (Z.pos q, e', loc_Exact).
Proof.
  intros He' Hsh Hpos Hmul. unfold SFdiv_core_binary. cbn [Zdigits2].
  change (Z.pos (digits2_pos 4503599627370496)) with 53.
  cbv zeta. rewrite He', Hsh.
  destruct sh as [|p|p]; try lia.
  rewrite Z.shiftl_mul_pow2, Hmul, div_eucl_exact by lia.
  reflexivity.
Qed.

Lemma shl_align_ge (mx : positive) (ex ex' : Z) :
  ex <= ex' -> shl_align mx ex ex' = (mx, ex).
Proof.
  intros H. unfold shl_align. destruct (ex' - ex) eqn:E; try reflexivity. lia.
Qed.

Lemma float_of_Z_1 : float_of_Z 1 = S754_finite false 4503599627370496 (-52).
Proof. reflexivity. Qed.

Lemma float_of_Z_2 : float_of_Z 2 = S754_finite false 4503599627370496 (-51).
Proof. reflexivity. Qed.

(** [c / 1.0] is [c]. *)
Lemma fdiv_one (c : spec_float) :
  valid_binary 53 1024 c = true -> fdiv c (float_of_Z 1) = c.
Proof.
  intros Hv. rewrite float_of_Z_1. destruct c as [s|s| |s m e]; simpl in Hv.
  - destruct s; reflexivity.
  - destruct s; reflexivity.
  - reflexivity.
  - destruct (bounded_cases m e Hv) as (He & Hc & Hcases).
    unfold fdiv, SFdiv. rewrite xorb_false_r.
    unfold fexp, emin in Hc.
    destruct (Z.eq_dec e (-1074)) as [Hmin|Hmin].
    + rewrite (SFdiv_core_pow2 m m e (-52) e 52).
      * now apply round_exact0.
      * unfold fexp, emin. lia.
      * lia.
      * lia.
      * reflexivity.
    + rewrite (SFdiv_core_pow2 m m~0 e (-52) (e - 1) 53).
      * now apply round_exact1.
      * unfold fexp, emin. lia.
      * lia.
      * lia.
      * rewrite Pos2Z.inj_xO. change (2 ^ 53) with (2 * 4503599627370496). lia.
Qed.

(** [(c + c) / 2.0] is [c] as long as [c + c] does not overflow. *)
Lemma fadd_self_half (s : bool) (m : positive) (e : Z) :
  bounded 53 1024 m e = true ->
  e < 971 ->
  fdiv (fadd (S754_finite s m e) (S754_finite s m e)) (float_of_Z 2)
  = S754_finite s m e.
Proof.
  intros Hv Hlt. destruct (bounded_cases m e Hv) as (He & Hc & Hcases).
  assert (Hc' := Hc). unfold fexp, emin in Hc'.
  assert (Hsum : fadd (S754_finite s m e) (S754_finite s m e)
                 = binary_round_aux 53 1024 s (Z.pos m~0) e loc_Exact).
  { unfold fadd, SFadd. rewrite Z.min_id.
    rewrite (shl_align_ge m e e) by lia. cbn [fst].
    assert (Hn : binary_normalize 53 1024
                   (cond_Zopp s (Z.pos m) + cond_Zopp s (Z.pos m)) e false
                 = binary_round 53 1024 s m~0 e).
    { destruct s; simpl; rewrite Pos.add_diag; reflexivity. }
    rewrite Hn. unfold binary_round.
    rewrite shl_align_ge; [reflexivity|].
    cbn [digits2_pos]. unfold fexp, emin. lia. }
  rewrite Hsum, float_of_Z_2.
  destruct (Z.eq_dec (Z.pos (digits2_pos m)) 53) as [Hd|Hd].
  - (* A normal number: the sum has the next exponent. *)
    assert (Hb1 : bounded 53 1024 m (e + 1) = true).
    { apply bounded_intro; [lia|]. unfold fexp, emin. lia. }
    replace e with (e + 1 - 1) at 1 by lia.
    rewrite (round_exact1 s m (e + 1) Hb1).
    unfold fdiv, SFdiv. rewrite xorb_false_r.
    destruct (Z.eq_dec e (-1074)) as [Hmin|Hmin].
    + rewrite (SFdiv_core_pow2 m m (e + 1) (-51) e 52).
      * now apply round_exact0.
      * unfold fexp, emin. lia.
      * lia.
      * lia.
      * reflexivity.
    + rewrite (SFdiv_core_pow2 m m~0 (e + 1) (-51) (e - 1) 53).
      * now apply round_exact1.
      * unfold fexp, emin. lia.
      * lia.
      * lia.
      * rewrite Pos2Z.inj_xO. change (2 ^ 53) with (2 * 4503599627370496). lia.
  - (* A subnormal number: the sum has twice the mantissa. *)
    assert (Hmin : e = -1074) by lia.
    assert (Hb2 : bounded 53 1024 m~0 e = true).
    { apply bounded_intro; [lia|]. cbn [digits2_pos]. unfold fexp, emin. lia. }
    rewrite (round_exact0 s m~0 e Hb2).
    unfold fdiv, SFdiv. rewrite xorb_false_r.
    rewrite (SFdiv_core_pow2 m~0 m e (-51) e 51).
    + now apply round_exact0.
    + cbn [digits2_pos]. unfold fexp, emin. lia.
    + lia.
    + lia.
    + rewrite Pos2Z.inj_xO. change (2 ^ 51) with 2251799813685248. lia.
Qed.

(** [c - c] is +0.0 for a finite [c]. *)
Lemma fsub_self (c : spec_float) :
  is_finite c = true -> fsub c c = S754_zero false.
Proof.
  destruct c as [s|s| |s m e]; intros Hf; try discriminate.
  - destruct s; reflexivity.
  - unfold fsub, SFsub. rewrite Z.sub_diag. reflexivity.
Qed.

Lemma digits2_pos_size (m : positive) : digits2_pos m = Pos.size m.
Proof. induction m as [m IH|m IH|]; simpl; now rewrite ?IH. Qed.

Lemma float_of_Z_half_max :
  float_of_Z (2 ^ 1023) = S754_finite false 4503599627370496 971.
Proof. vm_compute. reflexivity. Qed.

(** Below [2^1023] the exponent of a binary64 number is below 971. *)
Lemma below_half_max (s : bool) (m : positive) (e : Z) :
  bounded 53 1024 m e = true ->
  flt (SFabs (S754_finite s m e)) (float_of_Z (2 ^ 1023)) = true ->
  e < 971.
Proof.
  intros Hv Hlt. destruct (bounded_cases m e Hv) as (He & Hc & Hcases).
  rewrite float_of_Z_half_max in Hlt.
  unfold flt, SFltb in Hlt. cbn [SFabs SFcompare] in Hlt.
  revert Hlt.
  destruct (Z.compare_spec e 971) as [Heq|Hl|Hg]; intros Hlt;
    [|exact Hl|discriminate].
  exfalso.
  assert (Hm : (m < 4503599627370496)%positive).
  { revert Hlt. unfold Pos.lt, Pos.compare.
    destruct (Pos.compare_cont Eq m 4503599627370496); congruence. }
  clear Hlt Hv Hc.
  destruct Hcases as [[Hd _]|[Hmin _]]; [|rewrite Heq in Hmin; discriminate].
  pose proof (Pos.size_le m) as Hsize.
  rewrite <- digits2_pos_size in Hsize.
  injection Hd as Hd'. rewrite Hd' in Hsize.
  change (2 ^ 53)%positive with 9007199254740992%positive in Hsize.
  apply Pos2Z.pos_lt_pos in Hm. apply Pos2Z.pos_le_pos in Hsize.
  rewrite Pos2Z.inj_xO in Hsize. clear Hd' Heq He. lia.
Qed.

Lemma fadd_neg_zero_l (x : spec_float) : fadd (S754_zero true) x = x.
Proof. destruct x as [[|]|[|]| |s m e]; reflexivity. Qed.

Lemma np_mean_one (c : spec_float) : np_mean [c] = fdiv c (float_of_Z 1).
Proof.
  unfold np_mean. cbn [length pairwise_sum Nat.ltb Nat.leb fold_left].
  now rewrite !fadd_neg_zero_l.
Qed.

Lemma np_mean_two (a b : spec_float) :
  np_mean [a; b] = fdiv (fadd a b) (float_of_Z 2).
Proof.
  unfold np_mean. cbn [length pairwise_sum Nat.ltb Nat.leb fold_left].
  now rewrite !fadd_neg_zero_l.
Qed.

Lemma insert_sorted_repeat (c : spec_float) (n : nat) :
  insert_sorted c (repeat c n) = c :: repeat c n.
Proof.
  induction n as [|n IH]; simpl; [reflexivity|].
  destruct (fle c c); [reflexivity|]. now rewrite IH.
Qed.

Lemma sort_repeat (c : spec_float) (n : nat) : sort (repeat c n) = repeat c n.
Proof.
  induction n as [|n IH]; simpl; [reflexivity|].
  unfold sort in *. simpl. rewrite IH. apply insert_sorted_repeat.
Qed.

Lemma skipn_repeat {T} (c : T) (n k : nat) :
  skipn k (repeat c n) = repeat c (n - k).
Proof.
  revert k. induction n as [|n IH]; intros [|k]; simpl; try reflexivity. apply IH.
Qed.

Lemma firstn_repeat {T} (c : T) (n k : nat) :
  (k <= n)%nat -> firstn k (repeat c n) = repeat c k.
Proof.
  revert k. induction n as [|n IH]; intros [|k] Hk; simpl; try reflexivity; try lia.
  f_equal. apply IH. lia.
Qed.

Lemma existsb_repeat_false {T} (f : T -> bool) (c : T) (n : nat) :
  f c = false -> existsb f (repeat c n) = false.
Proof. intros Hc. induction n as [|n IH]; simpl; [reflexivity | now rewrite Hc]. Qed.

Lemma nth_repeat_in {T} (c d : T) (n i : nat) :
  (i < n)%nat -> nth i (repeat c n) d = c.
Proof.
  revert i. induction n as [|n IH]; intros i Hi; [lia|].
  destruct i as [|i]; simpl; [reflexivity|]. apply IH. lia.
Qed.

Lemma map_nth_seq {T U} (f : T -> U) (d : T) (l : list T) :
  map (fun i => f (nth i l d)) (seq 0 (length l)) = map f l.
Proof.
  induction l as [|a l IH]; simpl; [reflexivity|].
  f_equal. rewrite <- seq_shift, map_map. exact IH.
Qed.

(** The median of a non-empty constant signal is its value, unless the
    sum of the two middle elements of an even-length signal overflows. *)
Lemma median_repeat (c : spec_float) (n : nat) :
  valid_binary 53 1024 c = true ->
  is_finite c = true ->
  (Nat.even (S n) = true -> flt (SFabs c) (float_of_Z (2 ^ 1023)) = true) ->
  median (repeat c (S n)) = c.
Proof.
  intros Hv Hf Hhalf. unfold median.
  rewrite existsb_repeat_false by (destruct c; try reflexivity; discriminate).
  rewrite sort_repeat, repeat_length.
  assert (Hidx : (S n / 2 < S n)%nat) by (apply Nat.div_lt; lia).
  rewrite <- Nat.negb_even.
  destruct (Nat.even (S n)) eqn:Heven; cbn [negb].
  - assert (Hpos : (1 <= S n / 2)%nat).
    { destruct n as [|n]; [discriminate|].
      change (S (S n)) with (2 + n)%nat.
      replace (2 + n)%nat with (n + 1 * 2)%nat by lia.
      rewrite Nat.div_add by lia. lia. }
    rewrite skipn_repeat, firstn_repeat by lia.
    cbn [repeat]. rewrite np_mean_two.
    destruct c as [s|s| |s m e]; try discriminate.
    + destruct s; reflexivity.
    + apply fadd_self_half; [exact Hv|].
      apply (below_half_max s m e Hv). now apply Hhalf.
  - rewrite skipn_repeat, firstn_repeat by lia.
    cbn [repeat]. rewrite np_mean_one. now apply fdiv_one.
Qed.

(** C4, amended: for every non-empty constant signal of a finite binary64
    value [c], with [|c| < 2^1023] when the length is even, every
    [window_size] and every [max_stdev > 0], the result is the input, every
    element kept: the median is [c], the median absolute deviation is 0,
    every modified z-score is 0, and [0 < max_stdev] keeps the element. *)
Theorem remove_outliers_constant
    (c : spec_float) (n : nat) (max_stdev : spec_float) (window_size : Z) :
  valid_binary 53 1024 c = true ->
  is_finite c = true ->
  (Nat.even (S n) = true -> flt (SFabs c) (float_of_Z (2 ^ 1023)) = true) ->
  flt (S754_zero false) max_stdev = true ->
  remove_outliers_from_signal (repeat c (S n)) max_stdev window_size
  = repeat c (S n).
Proof.
  intros Hv Hf Hhalf Hpos.
  unfold remove_outliers_from_signal.
  rewrite (median_repeat c n Hv Hf Hhalf).
  rewrite map_repeat, (fsub_self c Hf). cbn [SFabs].
  rewrite (median_repeat (S754_zero false) n) by (intros; reflexivity).
  change (truthy (S754_zero false)) with false. cbv iota.
  rewrite map_repeat, repeat_length.
  assert (Hid : map (fun i => nth i (repeat c (S n)) S754_nan)
                    (seq 0 (length (repeat c (S n)))) = repeat c (S n)).
  { rewrite (map_nth_seq (fun x => x)). apply map_id. }
  rewrite repeat_length in Hid.
  etransitivity; [|exact Hid].
  apply map_ext_in. intros i Hi. apply in_seq in Hi.
  rewrite (nth_repeat_in (S754_zero false)) by lia.
  now rewrite Hpos.
Qed.

Lemma remove_outliers_constant_witness :
  valid_binary 53 1024 (float_of_Z 5) = true /\
  is_finite (float_of_Z 5) = true /\
  (Nat.even 4 = true -> flt (SFabs (float_of_Z 5)) (float_of_Z (2 ^ 1023)) = true) /\
  flt (S754_zero false) (float_of_Z 3) = true /\
  remove_outliers_from_signal (repeat (float_of_Z 5) 4) (float_of_Z 3) 30
  = repeat (float_of_Z 5) 4.
Proof.
  split; [reflexivity|]. split; [reflexivity|].
  split; [intros _; vm_compute; reflexivity|]. split; [reflexivity|].
  apply (remove_outliers_constant (float_of_Z 5) 3 (float_of_Z 3) 30);
    try reflexivity; intros _; vm_compute; reflexivity.
Defined.

(** C4 as stated fails, and so does the restriction to [max_stdev > 0]
    alone.  With [max_stdev = 0] the test [0 < max_stdev] is false, and the
    one-element signal [[5.0]] has an empty window, whose mean is nan.
    With [max_stdev = 3] and the signal [[2^1023, 2^1023]] the sum of the
    two middle elements overflows: the median is infinite, every score is
    nan, and the result is [[inf, nan]]. *)
Lemma remove_outliers_constant_not_kept :
  remove_outliers_from_signal [float_of_Z 5] (float_of_Z 0) 30 = [S754_nan] /\
  remove_outliers_from_signal [float_of_Z 5] (float_of_Z 0) 30 <> [float_of_Z 5] /\
  remove_outliers_from_signal (repeat (float_of_Z (2 ^ 1023)) 2) (float_of_Z 3) 30
  = [S754_infinity false; S754_nan] /\
  remove_outliers_from_signal (repeat (float_of_Z (2 ^ 1023)) 2) (float_of_Z 3) 30
  <> repeat (float_of_Z (2 ^ 1023)) 2.
Proof.
  split; [vm_compute; reflexivity|].
  split; [vm_compute; discriminate|].
  split; [vm_compute; reflexivity|].
  vm_compute. discriminate.
Qed.

End OutlierFacts.

(** ** The point transforms of [p1.py] *)

Section P1Facts.

Import P1.
Local Open Scope R_scope.

(** [brightenImg] undoes [darkenImg] for every exponent but 0. *)
Lemma brighten_darken_inverse (v p : R) :
  0 < v -> p <> 0 -> brightenImg (darkenImg v p) p = v.
Proof.
  intros Hv Hp. unfold brightenImg, darkenImg.
  assert (Hk : Rpower 255 (p - 1) <> 0).
  { unfold Rpower. apply Rgt_not_eq, exp_pos. }
  replace (Rpower 255 (p - 1) * (Rpower v p / Rpower 255 (p - 1)))
    with (Rpower v p) by (field; exact Hk).
  rewrite Rpower_mult.
  replace (p * (1 / p)) with 1 by (field; exact Hp).
  apply Rpower_1. exact Hv.
Qed.

(** C6: for every intensity strictly between 0 and 255,
    [brightenImg(darkenImg(v, 2), 2) = v], with the transforms read as the
    real functions [v^p / 255^(p-1)] and [(255^(p-1) * v)^(1/p)]. *)
Theorem brighten_darken_roundtrip (v : R) :
  0 < v < 255 -> brightenImg (darkenImg v 2) 2 = v.
Proof.
  intros [Hv _]. apply brighten_darken_inverse; [exact Hv | lra].
Qed.

Lemma brighten_darken_roundtrip_witness :
  0 < 100 < 255 /\ brightenImg (darkenImg 100 2) 2 = 100.
Proof. split; [lra | apply (brighten_darken_roundtrip 100); lra]. Defined.

(** On binary64, for the 254 interior grey levels of an 8-bit image, the
    round trip returns the level itself, bit for bit. *)
Lemma brighten_darken_roundtrip_b64 :
  Forall (fun z => brightenImg_b64 (darkenImg_b64 (b64 z)) = b64 z) interior_levels.
Proof.
  apply Forall_forall. intros z Hz.
  apply list_elem_of_In in Hz.
  assert (Hall : forallb (fun z => match brightenImg_b64 (darkenImg_b64 (b64 z)), b64 z with
                                   | S754_finite s m e, S754_finite s' m' e' =>
                                       Bool.eqb s s' && (m =? m')%positive && (e =? e')
                                   | _, _ => false
                                   end) interior_levels = true)
    by (vm_compute; reflexivity).
  rewrite forallb_forall in Hall. specialize (Hall z Hz).
  destruct (brightenImg_b64 _) as [| | |s m e]; try discriminate.
  destruct (b64 z) as [| | |s' m' e']; try discriminate.
  apply andb_true_iff in Hall as [Hall He].
  apply andb_true_iff in Hall as [Hs Hm].
  apply Bool.eqb_prop in Hs. apply Pos.eqb_eq in Hm. apply Z.eqb_eq in He.
  congruence.
Qed.

End P1Facts.

(** ** The temp-folder life cycle of [FileManagement] *)

Section StrFacts.

Local Open Scope string_scope.

Lemma length_append (s1 s2 : string) :
  String.length (s1 ++ s2) = (String.length s1 + String.length s2)%nat.
Proof. induction s1 as [|a s1 IH]; simpl; [reflexivity | now rewrite IH]. Qed.

Lemma rfind_char_append (c : ascii) (s1 s2 : string) :
  Str.rfind_char c s2 = None ->
  Str.rfind_char c (s1 ++ String c s2) = Some (String.length s1).
Proof.
  intros Hs2. induction s1 as [|a s1 IH]; simpl.
  - now rewrite Hs2, Ascii.eqb_refl.
  - now rewrite IH.
Qed.

Lemma take_append (s1 s2 : string) : Str.take (String.length s1) (s1 ++ s2) = s1.
Proof. induction s1 as [|a s1 IH]; simpl; [now destruct s2 | now rewrite IH]. Qed.

Lemma drop_append (s1 s2 : string) : Str.drop (String.length s1) (s1 ++ s2) = s2.
Proof. induction s1 as [|a s1 IH]; simpl; [now destruct s2 | exact IH]. Qed.

Lemma drop_append_sep (c : ascii) (s1 s2 : string) :
  Str.drop (S (String.length s1)) (s1 ++ String c s2) = s2.
Proof. induction s1 as [|a s1 IH]; simpl; [now destruct s2 | exact IH]. Qed.

Lemma append_neq (s1 : string) (c : ascii) (s2 : string) : s1 <> s1 ++ String c s2.
Proof.
  intros H. apply (f_equal String.length) in H.
  rewrite length_append in H. simpl in H. lia.
Qed.

(** The OS splits [d/n] into [d] and [n] when [n] holds no separator. *)
Lemma split_join (d n : string) :
  Str.rfind_char "/" n = None -> Os.split (d ++ "/" ++ n) = (d, n).
Proof.
  intros Hn. unfold Os.split.
  change (d ++ "/" ++ n) with (d ++ String "/" n).
  rewrite rfind_char_append by exact Hn.
  now rewrite take_append, drop_append_sep.
Qed.

End StrFacts.

Section FileManagementFacts.

Import Os FileManagement.
Local Open Scope string_scope.

Lemma temp_dir_is_dir (path : string) :
  get_dir_from_filepath (path ++ "/" ++ TEMP_SUBDIR_NAME) = path ++ "/" ++ TEMP_SUBDIR_NAME.
Proof.
  unfold get_dir_from_filepath, Str.rfind, TEMP_SUBDIR_NAME.
  change (path ++ "/" ++ "temp") with (path ++ String "/" "temp").
  rewrite (rfind_char_append "/" path "temp") by reflexivity.
  unfold Str.slice_from, Str.slice_bound.
  rewrite length_append. simpl String.length.
  destruct (Z.ltb_spec (Z.of_nat (String.length path)) 0) as [Hneg|_]; [lia|].
  rewrite Z.min_l by lia.
  rewrite Nat2Z.id, drop_append.
  reflexivity.
Qed.

(** Removing entries keeps every directory in place. *)
Lemma remove_keeps_dirs (st st' : fs) (p q : string) :
  remove st p = Some st' -> is_Some (st !! q) -> is_Some (st' !! q).
Proof.
  unfold remove. destruct (split p) as [d n].
  destruct (st !! d) as [ents|] eqn:Ed; simpl; [|discriminate].
  destruct (ents !! n) as [[text|]|]; simpl; try discriminate.
  intros [= <-] Hq.
  destruct (decide (d = q)) as [->|Hne].
  - rewrite lookup_insert_eq. eauto.
  - now rewrite lookup_insert_ne.
Qed.

Lemma remove_each_keeps_dirs (temp_dir : string) (files : list string) :
  forall (st : fs) (q : string),
    is_Some (st !! q) -> is_Some (remove_each temp_dir files st !! q).
Proof.
  induction files as [|f files IH]; intros st q Hq; simpl; [exact Hq|].
  unfold remove_each in *. simpl.
  destruct (remove st (temp_dir ++ "/" ++ f)) as [st'|] eqn:Er.
  - apply IH. eapply remove_keeps_dirs; eassumption.
  - apply IH. exact Hq.
Qed.

(** No exception leaves [delete_temp_files]. *)
Lemma delete_temp_files_never_raises
    (st : fs) (path : string) (time_stamp custom : option string) :
  (delete_temp_files st path time_stamp custom).2 <> Exc.
Proof.
  unfold delete_temp_files.
  set (temp_dir := temp_dir_of path custom).
  destruct (listdir st temp_dir) as [entries|] eqn:El; simpl; [|discriminate].
  destruct (length _ =? 0)%nat; simpl; [discriminate|].
  destruct (_ && _)%bool; simpl; [discriminate|].
  match goal with |- context [remove_each temp_dir ?l st] => set (sel := l) end.
  assert (Hdir : is_Some (remove_each temp_dir sel st !! temp_dir)).
  { apply remove_each_keeps_dirs. unfold listdir in El.
    destruct (st !! temp_dir); [eauto | discriminate]. }
  unfold listdir. destruct Hdir as [ents ->]. simpl.
  destruct (length _ =? 0)%nat; simpl; [|discriminate].
  destruct (rmdir _ _); simpl; discriminate.
Qed.

Lemma path_exists_false (st : fs) (d n : string) (ents : gmap string node) :
  Str.rfind_char "/" n = None ->
  st !! d = Some ents ->
  path_exists st (d ++ "/" ++ n) = false ->
  st !! (d ++ "/" ++ n) = None /\ ents !! n = None.
Proof.
  intros Hn Hd. unfold path_exists, isdir.
  rewrite split_join by exact Hn. rewrite Hd.
  intros H. apply orb_false_iff in H as [H1 H2].
  apply bool_decide_eq_false in H1, H2.
  split; apply eq_None_not_Some; assumption.
Qed.

(** The temp folder is created next to the entries of [path]. *)
Lemma create_temp_folder_fresh (st : fs) (now path : string) (ents : gmap string node) :
  st !! path = Some ents ->
  path_exists st (path ++ "/" ++ TEMP_SUBDIR_NAME) = false ->
  create_temp_folder st now path None
  = (<[path ++ "/" ++ TEMP_SUBDIR_NAME := ∅]>
       (<[path := <[TEMP_SUBDIR_NAME := Dir]> ents]> st),
     (path ++ "/" ++ TEMP_SUBDIR_NAME, now)).
Proof.
  intros Hpath Hfresh.
  unfold create_temp_folder, create_dir_if_not_exists, temp_dir_of.
  rewrite temp_dir_is_dir, Hfresh. simpl negb. cbv iota.
  unfold mkdir. rewrite Hfresh.
  rewrite split_join by reflexivity.
  rewrite Hpath. reflexivity.
Qed.

Lemma write_file_into_empty (st : fs) (d n text : string) :
  st !! d = Some ∅ ->
  Str.rfind_char "/" n = None ->
  write_file st (d ++ "/" ++ n) text = Some (<[d := {[n := File text]}]> st).
Proof.
  intros Hd Hn. unfold write_file.
  rewrite split_join by exact Hn.
  rewrite Hd. simpl. rewrite lookup_empty. reflexivity.
Qed.

(** Cleaning a missing temp folder: the listing fails, status -1. *)
Lemma delete_temp_files_absent (st : fs) (path : string) (time_stamp : option string) :
  st !! (path ++ "/" ++ TEMP_SUBDIR_NAME) = None ->
  delete_temp_files st path time_stamp None = (st, Ret (-1)).
Proof.
  intros Habs. unfold delete_temp_files, temp_dir_of, listdir.
  rewrite Habs. reflexivity.
Qed.

(** Cleaning a temp folder that holds one file with a dot in its name:
    the file and then the folder are removed, status 2. *)
Lemma delete_temp_files_single (st : fs) (path name text : string) :
  st !! (path ++ "/" ++ TEMP_SUBDIR_NAME) = Some {[name := File text]} ->
  Str.str_in "." name = true ->
  Str.rfind_char "/" name = None ->
  delete_temp_files st path None None
  = (alter (delete TEMP_SUBDIR_NAME) path
       (delete (path ++ "/" ++ TEMP_SUBDIR_NAME) st), Ret 2).
Proof.
  intros Htemp Hdot Hsep.
  unfold delete_temp_files, temp_dir_of.
  set (temp_dir := path ++ "/" ++ TEMP_SUBDIR_NAME) in *.
  unfold listdir at 1. rewrite Htemp. simpl.
  rewrite map_to_list_singleton. simpl.
  rewrite filter_cons_True by exact Hdot.
  rewrite filter_nil. simpl.
  unfold remove_each. simpl.
  unfold remove. rewrite split_join by exact Hsep.
  rewrite Htemp. simpl. rewrite lookup_singleton_eq. simpl.
  rewrite delete_singleton_eq.
  unfold listdir. rewrite lookup_insert_eq. simpl.
  rewrite map_to_list_empty. simpl.
  unfold rmdir. rewrite lookup_insert_eq. simpl.
  rewrite bool_decide_eq_true_2 by reflexivity.
  unfold temp_dir. rewrite split_join by reflexivity.
  rewrite delete_insert_eq. reflexivity.
Qed.

(** C3, amended: after creating the temp folder of an existing directory,
    and writing into it one file whose name holds a dot, the clean-up with
    no timestamp returns 2 and the temp folder is gone; a second clean-up
    raises nothing and returns -1, the status of errors: listing the absent
    folder fails inside the guarded block. *)
Theorem temp_folder_lifecycle_statuses
    (st : fs) (now path name text : string) (ents : gmap string node) :
  st !! path = Some ents ->
  path_exists st (path ++ "/" ++ TEMP_SUBDIR_NAME) = false ->
  Str.str_in "." name = true ->
  Str.rfind_char "/" name = None ->
  temp_folder_lifecycle st now path name text = Some (Ret 2, false, Ret (-1)).
Proof.
  intros Hpath Hfresh Hdot Hsep.
  destruct (path_exists_false st path TEMP_SUBDIR_NAME ents eq_refl Hpath Hfresh)
    as [Hnodir Hnoent].
  unfold temp_folder_lifecycle.
  rewrite (create_temp_folder_fresh st now path ents Hpath Hfresh).
  set (temp_dir := path ++ "/" ++ TEMP_SUBDIR_NAME) in *.
  assert (Hne : path <> temp_dir) by apply append_neq.
  set (st1 := <[temp_dir := ∅]> (<[path := <[TEMP_SUBDIR_NAME := Dir]> ents]> st)).
  rewrite (write_file_into_empty st1 temp_dir name text)
    by (exact Hsep || apply lookup_insert_eq).
  simpl.
  set (st2 := <[temp_dir := {[name := File text]}]> st1).
  rewrite (delete_temp_files_single st2 path name text)
    by (exact Hdot || exact Hsep || apply lookup_insert_eq).
  fold temp_dir.
  set (st3 := alter (delete TEMP_SUBDIR_NAME) path (delete temp_dir st2)).
  assert (Hgone : st3 !! temp_dir = None).
  { unfold st3. rewrite lookup_alter_ne by exact Hne. apply lookup_delete_eq. }
  assert (Hparent : st3 !! path = Some (delete TEMP_SUBDIR_NAME (<[TEMP_SUBDIR_NAME := Dir]> ents))).
  { unfold st3, st2, st1. rewrite lookup_alter_eq.
    rewrite lookup_delete_ne by congruence.
    rewrite !lookup_insert_ne by congruence.
    rewrite lookup_insert_eq. reflexivity. }
  rewrite (delete_temp_files_absent st3 path None Hgone).
  assert (Hex : path_exists st3 temp_dir = false).
  { unfold path_exists, isdir.
    rewrite bool_decide_eq_false_2 by (rewrite Hgone; apply is_Some_None).
    unfold temp_dir. rewrite split_join by reflexivity.
    rewrite Hparent, lookup_delete_eq.
    rewrite bool_decide_eq_false_2 by apply is_Some_None.
    reflexivity. }
  rewrite Hex. reflexivity.
Qed.

Lemma temp_folder_lifecycle_statuses_witness :
  cwd_with_out !! "./out" = Some ∅ /\
  path_exists cwd_with_out ("./out" ++ "/" ++ TEMP_SUBDIR_NAME) = false /\
  Str.str_in "." "a.txt" = true /\
  Str.rfind_char "/" "a.txt" = None /\
  temp_folder_lifecycle cwd_with_out "20240101_120000" "./out" "a.txt" "x"
  = Some (Ret 2, false, Ret (-1)).
Proof.
  split; [vm_compute; reflexivity|].
  split; [vm_compute; reflexivity|].
  split; [reflexivity|].
  split; [reflexivity|].
  apply (temp_folder_lifecycle_statuses cwd_with_out "20240101_120000" "./out" "a.txt" "x" ∅);
    vm_compute; reflexivity.
Defined.

(** C3 as stated fails: the second clean-up does not report the
    nothing-to-do status 1. *)
Lemma second_cleanup_is_not_status_1 :
  temp_folder_lifecycle cwd_with_out "20240101_120000" "./out" "a.txt" "x"
  = Some (Ret 2, false, Ret (-1)) /\
  (forall first gone,
     temp_folder_lifecycle cwd_with_out "20240101_120000" "./out" "a.txt" "x"
     <> Some (first, gone, Ret 1)).
Proof.
  assert (H : temp_folder_lifecycle cwd_with_out "20240101_120000" "./out" "a.txt" "x"
              = Some (Ret 2, false, Ret (-1))) by (vm_compute; reflexivity).
  split; [exact H|].
  intros first gone. rewrite H. intros [= _ _ Hbad].
Qed.

End FileManagementFacts.

(** * Further properties of the modelled code *)

(** ** Paths as strings *)

Section PathFacts.

Import Os FileManagement.
Local Open Scope string_scope.

Lemma str_in_char (c : ascii) (s : string) :
  Str.str_in (String c "") s
  = match Str.rfind_char c s with Some _ => true | None => false end.
Proof.
  induction s as [|a s IH]; [reflexivity|].
  simpl. rewrite IH.
  destruct (Str.rfind_char c s); [apply orb_true_r|].
  rewrite orb_false_r.
  destruct (Ascii.eqb_spec a c) as [->|Hne].
  - destruct (ascii_dec c c); [now destruct s | congruence].
  - destruct (ascii_dec c a); [congruence | reflexivity].
Qed.

Lemma rfind_char_snoc (c a : ascii) (s : string) :
  Str.rfind_char c s = None -> a <> c ->
  Str.rfind_char c (s ++ String a "") = None.
Proof.
  intros Hs Ha. induction s as [|b s IH]; simpl in *.
  - destruct (Ascii.eqb_spec a c); [congruence | reflexivity].
  - destruct (Str.rfind_char c s); [discriminate|].
    rewrite IH by reflexivity. exact Hs.
Qed.

Lemma take_all (s : string) : Str.take (String.length s) s = s.
Proof. induction s as [|a s IH]; simpl; [reflexivity | now rewrite IH]. Qed.

Lemma slice_to_length (s t : string) :
  Str.slice_to (s ++ t) (Z.of_nat (String.length s)) = s.
Proof.
  unfold Str.slice_to, Str.slice_bound.
  rewrite length_append.
  destruct (Z.ltb_spec (Z.of_nat (String.length s)) 0); [lia|].
  rewrite Z.min_l by lia. rewrite Nat2Z.id. apply take_append.
Qed.

Lemma slice_from_length (s t : string) :
  Str.slice_from (s ++ t) (Z.of_nat (String.length s)) = t.
Proof.
  unfold Str.slice_from, Str.slice_bound.
  rewrite length_append.
  destruct (Z.ltb_spec (Z.of_nat (String.length s)) 0); [lia|].
  rewrite Z.min_l by lia. rewrite Nat2Z.id. apply drop_append.
Qed.

(** The last character and what precedes it, as [s[-1:]] and [s[:-1]]. *)
Lemma slice_last (s : string) (a : ascii) :
  Str.slice_from (s ++ String a "") (-1) = String a "" /\
  Str.slice_to (s ++ String a "") (-1) = s.
Proof.
  unfold Str.slice_from, Str.slice_to, Str.slice_bound.
  rewrite length_append. simpl String.length.
  change (-1 <? 0)%Z with true. cbv iota.
  replace (Z.to_nat (Z.max (-1 + Z.of_nat (String.length s + 1)) 0))
    with (String.length s) by lia.
  split; [apply drop_append | apply take_append].
Qed.

Lemma get_dir_from_filepath_last_segment (d n : string) :
  Str.rfind_char "/" n = None ->
  get_dir_from_filepath (d ++ "/" ++ n)
  = if Str.str_in "." n then d else d ++ "/" ++ n.
Proof.
  intros Hn. unfold get_dir_from_filepath, Str.rfind.
  change (d ++ "/" ++ n) with (d ++ String "/" n).
  rewrite rfind_char_append by exact Hn.
  rewrite slice_from_length, slice_to_length.
  assert (Hdot : Str.str_in "." (String "/" n) = Str.str_in "." n).
  { simpl. destruct n; reflexivity. }
  now rewrite Hdot.
Qed.

(** X1: for a path [d/n] whose last segment [n] holds no separator,
    [get_dir_from_filepath] returns [d] when [n] holds a dot and the path
    itself otherwise. *)
Theorem get_dir_from_filepath_join (d n : string) :
  Str.rfind_char "/" n = None ->
  get_dir_from_filepath (d ++ "/" ++ n)
  = if Str.str_in "." n then d else d ++ "/" ++ n.
Proof. exact (get_dir_from_filepath_last_segment d n). Qed.

Lemma get_dir_from_filepath_join_witness :
  Str.rfind_char "/" "report.txt" = None /\
  get_dir_from_filepath ("./out" ++ "/" ++ "report.txt")
  = if Str.str_in "." "report.txt" then "./out" else "./out" ++ "/" ++ "report.txt".
Proof. split; [reflexivity | apply (get_dir_from_filepath_join "./out" "report.txt"); reflexivity]. Defined.

(** X2: a path without any separator is returned as it is, dots inside it
    or not, unless its last character is a dot, which is then cut off: a
    bare file name is not resolved to a parent directory. *)
Theorem get_dir_from_filepath_bare (s : string) (a : ascii) :
  Str.rfind_char "/" s = None -> a <> "/"%char ->
  get_dir_from_filepath (s ++ String a "")
  = if Ascii.eqb a "." then s else s ++ String a "".
Proof.
  intros Hs Ha. unfold get_dir_from_filepath, Str.rfind.
  rewrite rfind_char_snoc by assumption.
  destruct (slice_last s a) as [-> ->].
  rewrite str_in_char. simpl.
  destruct (Ascii.eqb_spec a "."); reflexivity.
Qed.

Lemma get_dir_from_filepath_bare_witness :
  Str.rfind_char "/" "data.jso" = None /\ "n"%char <> "/"%char /\
  get_dir_from_filepath ("data.jso" ++ "n")
  = if Ascii.eqb "n" "." then "data.jso" else "data.jso" ++ "n".
Proof.
  split; [reflexivity|]. split; [discriminate|].
  apply (get_dir_from_filepath_bare "data.jso" "n"); [reflexivity | discriminate].
Defined.

Lemma replace_char_fresh (a b : ascii) (s : string) :
  a <> b -> Str.rfind_char a (Str.replace_char a b s) = None.
Proof.
  intros Hab. induction s as [|c s IH]; simpl; [reflexivity|].
  rewrite IH.
  destruct (Ascii.eqb_spec c a) as [->|Hca].
  - destruct (Ascii.eqb_spec b a); [congruence | reflexivity].
  - destruct (Ascii.eqb_spec c a); [congruence | reflexivity].
Qed.

Lemma replace_char_absent (a b : ascii) (s : string) :
  Str.rfind_char a s = None -> Str.replace_char a b s = s.
Proof.
  induction s as [|c s IH]; simpl; [reflexivity|].
  destruct (Str.rfind_char a s); [discriminate|].
  destruct (Ascii.eqb_spec c a); [discriminate|].
  intros _. now rewrite IH.
Qed.

Lemma replace_char_length (a b : ascii) (s : string) :
  String.length (Str.replace_char a b s) = String.length s.
Proof. induction s as [|c s IH]; simpl; [reflexivity | now rewrite IH]. Qed.

(** X3: [path_to_python] leaves no backslash in the path, keeps its
    length, changes nothing in a path without backslash, and applying it
    twice is applying it once. *)
Theorem path_to_python_normalises (path : string) :
  Str.rfind_char "\" (path_to_python path) = None /\
  String.length (path_to_python path) = String.length path /\
  (Str.rfind_char "\" path = None -> path_to_python path = path) /\
  path_to_python (path_to_python path) = path_to_python path.
Proof.
  unfold path_to_python.
  assert (Hfresh : Str.rfind_char "\" (Str.replace_char "\" "/" path) = None)
    by (apply replace_char_fresh; discriminate).
  split; [exact Hfresh|].
  split; [apply replace_char_length|].
  split; [apply replace_char_absent|].
  apply replace_char_absent. exact Hfresh.
Qed.

End PathFacts.

(** ** Directories and the temp folder *)

Section DirectoryFacts.

Import Os FileManagement.
Local Open Scope string_scope.

Lemma mkdir_exists (st st' : fs) (p : string) :
  mkdir st p = Some st' -> path_exists st' p = true.
Proof.
  unfold mkdir. destruct (path_exists st p); [discriminate|].
  destruct (split p) as [d n].
  destruct (st !! d) as [ents|]; simpl; [|discriminate].
  intros [= <-]. unfold path_exists, isdir.
  rewrite lookup_insert_eq.
  rewrite bool_decide_eq_true_2 by eauto. reflexivity.
Qed.

(** X4: when [create_dir_if_not_exists] returns a path, it is the
    directory [get_dir_from_filepath] resolves and it exists afterwards;
    when it returns nothing, the directory did not exist and the file
    system is unchanged. *)
Theorem create_dir_if_not_exists_post (st : fs) (dir_path : string) :
  let '(st', r) := create_dir_if_not_exists st dir_path in
  match r with
  | Some p => p = get_dir_from_filepath dir_path /\ path_exists st' p = true
  | None => st' = st /\ path_exists st (get_dir_from_filepath dir_path) = false
  end.
Proof.
  unfold create_dir_if_not_exists.
  destruct (path_exists st (get_dir_from_filepath dir_path)) eqn:Hex; simpl.
  - split; [reflexivity | exact Hex].
  - destruct (mkdir st (get_dir_from_filepath dir_path)) as [st'|] eqn:Hmk.
    + split; [reflexivity|]. eapply mkdir_exists; eassumption.
    + split; reflexivity.
Qed.



(** X6: a custom temp name that holds a dot is taken for a file name: with
    the parent directory present, [create_temp_folder] creates nothing, and
    the temp path it returns does not exist. *)
Theorem create_temp_folder_dotted_name (st : fs) (now path c : string) (ents : gmap string node) :
  Str.rfind_char "/" c = None ->
  Str.str_in "." c = true ->
  st !! path = Some ents ->
  path_exists st (path ++ "/" ++ c) = false ->
  create_temp_folder st now path (Some c) = (st, (path ++ "/" ++ c, now)) /\
  path_exists st (path ++ "/" ++ c) = false.
Proof.
  intros Hc Hdot Hpath Hfresh. split; [|exact Hfresh].
  unfold create_temp_folder, create_dir_if_not_exists, temp_dir_of.
  rewrite get_dir_from_filepath_last_segment by exact Hc. rewrite Hdot.
  assert (Hex : path_exists st path = true).
  { unfold path_exists, isdir. rewrite Hpath.
    rewrite bool_decide_eq_true_2 by eauto. reflexivity. }
  now rewrite Hex.
Qed.

Lemma create_temp_folder_dotted_name_witness :
  Str.rfind_char "/" "tmp.d" = None /\
  Str.str_in "." "tmp.d" = true /\
  cwd_with_out !! "./out" = Some ∅ /\
  path_exists cwd_with_out ("./out" ++ "/" ++ "tmp.d") = false /\
  (create_temp_folder cwd_with_out "t" "./out" (Some "tmp.d")
   = (cwd_with_out, ("./out" ++ "/" ++ "tmp.d", "t")) /\
   path_exists cwd_with_out ("./out" ++ "/" ++ "tmp.d") = false).
Proof.
  split; [reflexivity|]. split; [reflexivity|].
  split; [vm_compute; reflexivity|]. split; [vm_compute; reflexivity|].
  apply (create_temp_folder_dotted_name cwd_with_out "t" "./out" "tmp.d" ∅);
    vm_compute; reflexivity.
Defined.

(** X7: a temp folder that holds no entry with a dot in its name, the
    empty folder included, is left as it is with status 1: the folder is
    not removed. *)
Theorem delete_temp_files_nothing_to_do
    (st : fs) (path : string) (time_stamp custom : option string) (ents : gmap string node) :
  st !! temp_dir_of path custom = Some ents ->
  (forall n, is_Some (ents !! n) -> Str.str_in "." n = false) ->
  delete_temp_files st path time_stamp custom = (st, Ret 1).
Proof.
  intros Hdir Hnodot.
  unfold delete_temp_files, listdir. rewrite Hdir. simpl.
  assert (Hnil : filter (fun x : string => Str.str_in "." x = true) (map_to_list ents).*1 = []).
  { destruct (filter _ _) as [|n t] eqn:E; [reflexivity|].
    assert (Hin : n ∈ n :: t) by left.
    rewrite <- E in Hin. apply list_elem_of_filter in Hin as [Hp Hin].
    apply list_elem_of_fmap in Hin as ([n' e] & -> & Hin).
    apply elem_of_map_to_list in Hin. simpl in Hp.
    rewrite Hnodot in Hp by eauto. discriminate. }
  rewrite Hnil. reflexivity.
Qed.

Lemma delete_temp_files_nothing_to_do_witness :
  cwd_with_out !! temp_dir_of "." (Some "out") = Some ∅ /\
  (forall n, is_Some ((∅ : gmap string node) !! n) -> Str.str_in "." n = false) /\
  delete_temp_files cwd_with_out "." None (Some "out") = (cwd_with_out, Ret 1).
Proof.
  split; [vm_compute; reflexivity|].
  split; [intros n [e He]; rewrite lookup_empty in He; discriminate|].
  apply (delete_temp_files_nothing_to_do cwd_with_out "." None (Some "out") ∅).
  - vm_compute; reflexivity.
  - intros n [e He]. rewrite lookup_empty in He. discriminate.
Defined.

End DirectoryFacts.

Section CleanupFacts.

Import Os FileManagement.
Local Open Scope string_scope.

Lemma remove_in_dir (st : fs) (d f : string) (ents : gmap string node) :
  Str.rfind_char "/" f = None ->
  st !! d = Some ents ->
  remove st (d ++ "/" ++ f)
  = if is_file (ents !! f) then Some (<[d := delete f ents]> st) else None.
Proof.
  intros Hf Hd. unfold remove. rewrite split_join by exact Hf.
  rewrite Hd. simpl. destruct (ents !! f) as [[text|]|]; reflexivity.
Qed.

(** What the removal loop leaves in the folder, and that it touches
    nothing else. *)
Lemma remove_each_entries (d : string) (files : list string) :
  forall (st : fs) (ents : gmap string node),
    Forall (fun f => Str.rfind_char "/" f = None) files ->
    st !! d = Some ents ->
    exists ents',
      remove_each d files st !! d = Some ents' /\
      (forall n, ents' !! n
                 = if bool_decide (n ∈ files) && is_file (ents !! n)
                   then None else ents !! n) /\
      (forall q, q <> d -> remove_each d files st !! q = st !! q).
Proof.
  induction files as [|f files IH]; intros st ents Hfiles Hd.
  - exists ents. split; [exact Hd|]. split; [|reflexivity].
    intros n. rewrite bool_decide_eq_false_2 by apply not_elem_of_nil. reflexivity.
  - apply Forall_cons in Hfiles as [Hf Hfiles].
    unfold remove_each. simpl. fold (remove_each d files).
    rewrite (remove_in_dir st d f ents Hf Hd).
    destruct (is_file (ents !! f)) eqn:Hfile.
    + destruct (IH (<[d := delete f ents]> st) (delete f ents) Hfiles
                  (lookup_insert_eq _ _ _)) as (ents' & Hl & Hents & Hother).
      exists ents'. split; [exact Hl|]. split.
      * intros n. rewrite Hents.
        destruct (decide (n = f)) as [->|Hne].
        -- rewrite lookup_delete_eq. simpl. rewrite andb_false_r.
           rewrite bool_decide_eq_true_2 by left. now rewrite Hfile.
        -- rewrite lookup_delete_ne by congruence.
           assert (Hmem : bool_decide (n ∈ f :: files) = bool_decide (n ∈ files)).
           { apply bool_decide_ext. rewrite elem_of_cons. tauto. }
           now rewrite Hmem.
      * intros q Hq. rewrite Hother by exact Hq.
        apply lookup_insert_ne. congruence.
    + destruct (IH st ents Hfiles Hd) as (ents' & Hl & Hents & Hother).
      exists ents'. split; [exact Hl|]. split; [|exact Hother].
      intros n. rewrite Hents.
      destruct (decide (n = f)) as [->|Hne].
      * rewrite Hfile, !andb_false_r. reflexivity.
      * assert (Hmem : bool_decide (n ∈ f :: files) = bool_decide (n ∈ files)).
        { apply bool_decide_ext. rewrite elem_of_cons. tauto. }
        now rewrite Hmem.
Qed.

Lemma listed_names (ents : gmap string node) (n : string) :
  n ∈ (map_to_list ents).*1 <-> is_Some (ents !! n).
Proof.
  rewrite list_elem_of_fmap. split.
  - intros ([n' e] & -> & Hin). apply elem_of_map_to_list in Hin. eauto.
  - intros [e He]. exists (n, e). split; [reflexivity|].
    now apply elem_of_map_to_list.
Qed.

(** The names the function selects are the listed ones with a dot and,
    when asked for, the timestamp. *)
Lemma selected_names (time_stamp : option string) (ents : gmap string node) (n : string) :
  let dotted := filter (fun x => Str.str_in "." x = true) (map_to_list ents).*1 in
  let selected := match time_stamp with
                  | Some ts => filter (fun x => Str.str_in ts x = true) dotted
                  | None => dotted
                  end in
  bool_decide (n ∈ selected) && is_file (ents !! n) = targeted time_stamp ents n.
Proof.
  intros dotted selected. unfold targeted.
  destruct (is_file (ents !! n)) eqn:Hfile; [|now rewrite andb_false_r].
  rewrite andb_true_r. simpl.
  assert (Hin : n ∈ (map_to_list ents).*1).
  { apply listed_names. destruct (ents !! n); [eauto | discriminate]. }
  assert (Hdotted : n ∈ dotted <-> Str.str_in "." n = true).
  { unfold dotted. rewrite list_elem_of_filter. tauto. }
  destruct time_stamp as [ts|]; unfold selected.
  - destruct (Str.str_in "." n) eqn:Hdot, (Str.str_in ts n) eqn:Hts; simpl.
    + apply bool_decide_eq_true_2. apply list_elem_of_filter. tauto.
    + apply bool_decide_eq_false_2. rewrite list_elem_of_filter. intros [H _]. congruence.
    + apply bool_decide_eq_false_2. rewrite list_elem_of_filter, Hdotted. intros [_ H]. congruence.
    + apply bool_decide_eq_false_2. rewrite list_elem_of_filter, Hdotted. intros [_ H]. congruence.
  - rewrite andb_true_r. destruct (Str.str_in "." n) eqn:Hdot.
    + apply bool_decide_eq_true_2. now apply Hdotted.
    + apply bool_decide_eq_false_2. rewrite Hdotted. congruence.
Qed.

(** X8: what a clean-up leaves.  For a temp folder whose entry names hold
    no separator: if the folder is still there afterwards, the status is 0
    or 1 and the folder holds exactly its former entries minus the
    regular files with a dot in the name (and the timestamp, when one is
    given); subdirectories and other files are kept.  If the folder is
    gone, the status is 2 and every former entry was such a file. *)
Theorem delete_temp_files_entries
    (st : fs) (path : string) (time_stamp custom : option string) (ents : gmap string node) :
  st !! temp_dir_of path custom = Some ents ->
  (forall n, is_Some (ents !! n) -> Str.rfind_char "/" n = None) ->
  let '(st', r) := delete_temp_files st path time_stamp custom in
  match st' !! temp_dir_of path custom with
  | Some ents' =>
      (r = Ret 0 \/ r = Ret 1) /\
      (forall n, ents' !! n = if targeted time_stamp ents n then None else ents !! n)
  | None =>
      r = Ret 2 /\ (forall n, is_Some (ents !! n) -> targeted time_stamp ents n = true)
  end.
Proof.
  intros Hdir Hsep.
  unfold delete_temp_files.
  set (temp_dir := temp_dir_of path custom) in *.
  unfold listdir at 1. rewrite Hdir. simpl.
  set (dotted := filter (fun x => Str.str_in "." x = true) (map_to_list ents).*1).
  set (selected := match time_stamp with
                   | Some ts => filter (fun x => Str.str_in ts x = true) dotted
                   | None => dotted
                   end).
  pose proof (selected_names time_stamp ents) as Hsel. simpl in Hsel.
  fold dotted in Hsel. fold selected in Hsel.
  assert (Hnone : selected = [] -> forall n, targeted time_stamp ents n = false).
  { intros Hnil n. rewrite <- Hsel, Hnil.
    rewrite bool_decide_eq_false_2 by apply not_elem_of_nil. reflexivity. }
  assert (Hdotted_nil : dotted = [] -> selected = []).
  { intros Hnil. unfold selected. rewrite Hnil. now destruct time_stamp. }
  destruct (length dotted =? 0)%nat eqn:Hlen.
  { apply Nat.eqb_eq, nil_length_inv in Hlen.
    rewrite Hdir. split; [now right|].
    intros n. now rewrite (Hnone (Hdotted_nil Hlen) n). }
  destruct (bool_decide (is_Some time_stamp) && (length selected =? 0)%nat)%bool eqn:Hts.
  { apply andb_true_iff in Hts as [_ Hlen'].
    apply Nat.eqb_eq, nil_length_inv in Hlen'.
    rewrite Hdir. split; [now right|].
    intros n. now rewrite (Hnone Hlen' n). }
  assert (Hfiles : Forall (fun f => Str.rfind_char "/" f = None) selected).
  { apply Forall_forall. intros f Hf. apply Hsep, listed_names.
    unfold selected, dotted in Hf.
    destruct time_stamp; repeat (apply list_elem_of_filter in Hf as [_ Hf]); exact Hf. }
  destruct (remove_each_entries temp_dir selected st ents Hfiles Hdir)
    as (ents1 & Hl & Hents & _).
  unfold listdir. rewrite Hl. simpl.
  destruct (length (map_to_list ents1).*1 =? 0)%nat eqn:Hrest.
  - apply Nat.eqb_eq, nil_length_inv, fmap_nil_inv, map_to_list_empty_iff in Hrest.
    subst ents1.
    unfold rmdir. rewrite Hl. simpl.
    rewrite bool_decide_eq_true_2 by reflexivity.
    destruct (split temp_dir) as [d n0].
    assert (Hgone : alter (delete n0) d (delete temp_dir (remove_each temp_dir selected st))
                    !! temp_dir = None).
    { destruct (decide (d = temp_dir)) as [->|Hne].
      - rewrite lookup_alter_eq, lookup_delete_eq. reflexivity.
      - rewrite lookup_alter_ne by exact Hne. apply lookup_delete_eq. }
    rewrite Hgone. split; [reflexivity|].
    intros n [e He]. rewrite <- Hsel.
    specialize (Hents n). rewrite lookup_empty, He in Hents. rewrite He.
    destruct (bool_decide (n ∈ selected) && is_file (Some e)); [reflexivity | discriminate].
  - rewrite Hl. split; [now left|].
    intros n. rewrite Hents. now rewrite Hsel.
Qed.

Lemma delete_temp_files_entries_witness :
  out_with_temp_file !! temp_dir_of "./out" None = Some {[ "a.txt" := File "x" ]} /\
  (forall n, is_Some (({[ "a.txt" := File "x" ]} : gmap string node) !! n) ->
             Str.rfind_char "/" n = None) /\
  (let '(st', r) := delete_temp_files out_with_temp_file "./out" None None in
   match st' !! temp_dir_of "./out" None with
   | Some ents' =>
       (r = Ret 0 \/ r = Ret 1) /\
       (forall n, ents' !! n
                  = if targeted None {[ "a.txt" := File "x" ]} n then None
                    else ({[ "a.txt" := File "x" ]} : gmap string node) !! n)
   | None =>
       r = Ret 2 /\
       (forall n, is_Some (({[ "a.txt" := File "x" ]} : gmap string node) !! n) ->
                  targeted None {[ "a.txt" := File "x" ]} n = true)
   end).
Proof.
  assert (Hone : forall n, is_Some (({[ "a.txt" := File "x" ]} : gmap string node) !! n) ->
                           Str.rfind_char "/" n = None).
  { intros n [e He]. apply lookup_singleton_Some in He as [<- _]. reflexivity. }
  split; [vm_compute; reflexivity|].
  split; [exact Hone|].
  apply (delete_temp_files_entries out_with_temp_file "./out" None None
           {[ "a.txt" := File "x" ]});
    [vm_compute; reflexivity | exact Hone].
Defined.

(** X9: a clean-up changes nothing outside the temp folder and the
    directory holding it. *)
Theorem delete_temp_files_frame
    (st : fs) (path : string) (time_stamp custom : option string)
    (ents : gmap string node) (q : string) :
  st !! temp_dir_of path custom = Some ents ->
  (forall n, is_Some (ents !! n) -> Str.rfind_char "/" n = None) ->
  q <> temp_dir_of path custom ->
  q <> (split (temp_dir_of path custom)).1 ->
  (delete_temp_files st path time_stamp custom).1 !! q = st !! q.
Proof.
  intros Hdir Hsep Hq Hparent.
  unfold delete_temp_files.
  set (temp_dir := temp_dir_of path custom) in *.
  unfold listdir at 1. rewrite Hdir. simpl.
  set (dotted := filter (fun x => Str.str_in "." x = true) (map_to_list ents).*1).
  set (selected := match time_stamp with
                   | Some ts => filter (fun x => Str.str_in ts x = true) dotted
                   | None => dotted
                   end).
  destruct (length dotted =? 0)%nat; [reflexivity|].
  destruct (bool_decide (is_Some time_stamp) && (length selected =? 0)%nat)%bool;
    [reflexivity|].
  assert (Hfiles : Forall (fun f => Str.rfind_char "/" f = None) selected).
  { apply Forall_forall. intros f Hf. apply Hsep, listed_names.
    unfold selected, dotted in Hf.
    destruct time_stamp; repeat (apply list_elem_of_filter in Hf as [_ Hf]); exact Hf. }
  destruct (remove_each_entries temp_dir selected st ents Hfiles Hdir)
    as (ents1 & Hl & _ & Hother).
  unfold listdir. rewrite Hl. simpl.
  destruct (length (map_to_list ents1).*1 =? 0)%nat; simpl; [|now apply Hother].
  unfold rmdir. rewrite Hl. simpl.
  destruct (bool_decide (ents1 = ∅)); simpl; [|now apply Hother].
  destruct (split temp_dir) as [d n0]. simpl in *.
  rewrite lookup_alter_ne by congruence.
  rewrite lookup_delete_ne by congruence.
  now apply Hother.
Qed.

Lemma delete_temp_files_frame_witness :
  out_with_temp_file !! temp_dir_of "./out" None = Some {[ "a.txt" := File "x" ]} /\
  (forall n, is_Some (({[ "a.txt" := File "x" ]} : gmap string node) !! n) ->
             Str.rfind_char "/" n = None) /\
  "." <> temp_dir_of "./out" None /\
  "." <> (split (temp_dir_of "./out" None)).1 /\
  (delete_temp_files out_with_temp_file "./out" None None).1 !! "."
  = out_with_temp_file !! ".".
Proof.
  assert (Hone : forall n, is_Some (({[ "a.txt" := File "x" ]} : gmap string node) !! n) ->
                           Str.rfind_char "/" n = None).
  { intros n [e He]. apply lookup_singleton_Some in He as [<- _]. reflexivity. }
  split; [vm_compute; reflexivity|].
  split; [exact Hone|].
  split; [discriminate|].
  split; [discriminate|].
  apply (delete_temp_files_frame out_with_temp_file "./out" None None
           {[ "a.txt" := File "x" ]} ".");
    [vm_compute; reflexivity | exact Hone | discriminate | discriminate].
Defined.

End CleanupFacts.

(** ** [isFile], [isFolder], [getFileExtension], [checkFileIsValid] *)

Section FileKindFacts.

Import Os FileManagement.
Local Open Scope string_scope.

Lemma split_no_sep (sep : ascii) (s : string) :
  Str.rfind_char sep s = None -> Str.split sep s = [s].
Proof.
  induction s as [|a s IH]; simpl; [reflexivity|].
  destruct (Str.rfind_char sep s); [discriminate|].
  destruct (Ascii.eqb a sep); [discriminate|].
  intros _. now rewrite IH.
Qed.

Lemma split_append (sep : ascii) (s1 s2 : string) :
  exists h l, Str.split sep (s1 ++ String sep s2) = ((h :: l) ++ Str.split sep s2)%list.
Proof.
  induction s1 as [|a s1 (h & l & IH)]; simpl.
  - rewrite Ascii.eqb_refl. exists "", []. reflexivity.
  - destruct (Ascii.eqb a sep).
    + exists "", (h :: l). now rewrite IH.
    + rewrite IH. exists (String a h), l. reflexivity.
Qed.

Lemma split_not_nil (sep : ascii) (s : string) : Str.split sep s <> [].
Proof.
  destruct s as [|a s]; simpl; [discriminate|].
  destruct (Ascii.eqb a sep); [discriminate|].
  destruct (Str.split sep s); discriminate.
Qed.

Lemma last_app_not_nil (l1 l2 : list string) :
  l2 <> [] -> Str.last_part (l1 ++ l2)%list = Str.last_part l2.
Proof.
  intros Hl2. unfold Str.last_part.
  induction l1 as [|x l1 IH]; [reflexivity|].
  simpl. destruct (l1 ++ l2)%list eqn:E; [|exact IH].
  apply app_eq_nil in E as [_ ->]. congruence.
Qed.

(** The part after the last separator. *)
Lemma last_part_split (sep : ascii) (s1 s2 : string) :
  Str.rfind_char sep s2 = None ->
  Str.last_part (Str.split sep (s1 ++ String sep s2)) = s2.
Proof.
  intros Hs2. destruct (split_append sep s1 s2) as (h & l & ->).
  rewrite last_app_not_nil by apply split_not_nil.
  now rewrite split_no_sep.
Qed.

Lemma final_segment_join (d n : string) :
  Str.rfind_char "/" n = None -> final_segment (d ++ "/" ++ n) = Some n.
Proof.
  intros Hn. unfold final_segment.
  change (d ++ "/" ++ n) with (d ++ String "/" n).
  rewrite str_in_char, rfind_char_append by exact Hn.
  now rewrite last_part_split.
Qed.

(** X10: [isFile] and [isFolder] never both say yes; a path that does not
    exist, or that holds neither [/] nor a backslash, is neither, with
    status -1, whether or not it exists. *)
Theorem isFile_isFolder_exclusive (st : fs) (path : string) :
  ~ ((isFile st path).1 = true /\ (isFolder st path).1 = true) /\
  (path_exists st path = false -> isFile st path = (false, -1) /\ isFolder st path = (false, -1)) /\
  (Str.str_in "/" path = false -> Str.str_in "\" path = false ->
   isFile st path = (false, -1) /\ isFolder st path = (false, -1)).
Proof.
  unfold isFolder, isFile, final_segment.
  destruct (Str.str_in "/" path), (Str.str_in "\" path), (path_exists st path);
    simpl; repeat (destruct (Str.str_in "." _); simpl);
    repeat split; try reflexivity; try discriminate;
    intros []; discriminate.
Qed.

(** X11: the test is on the name alone: an existing directory whose name
    holds a dot is reported as a file and not as a folder. *)
Theorem isFile_dotted_directory (st : fs) (d n : string) (ents : gmap string node) :
  Str.rfind_char "/" n = None ->
  Str.str_in "." n = true ->
  st !! (d ++ "/" ++ n) = Some ents ->
  isFile st (d ++ "/" ++ n) = (true, 0) /\ isFolder st (d ++ "/" ++ n) = (false, 0).
Proof.
  intros Hn Hdot Hdir.
  assert (Hex : path_exists st (d ++ "/" ++ n) = true).
  { unfold path_exists, isdir. rewrite Hdir.
    rewrite bool_decide_eq_true_2 by eauto. reflexivity. }
  unfold isFolder, isFile.
  rewrite final_segment_join by exact Hn.
  rewrite Hex, Hdot. simpl. split; reflexivity.
Qed.

Lemma isFile_dotted_directory_witness :
  Str.rfind_char "/" "v1.0" = None /\
  Str.str_in "." "v1.0" = true /\
  (<["./out/v1.0" := ∅]> cwd_with_out : fs) !! ("./out" ++ "/" ++ "v1.0") = Some ∅ /\
  (isFile (<["./out/v1.0" := ∅]> cwd_with_out) ("./out" ++ "/" ++ "v1.0") = (true, 0) /\
   isFolder (<["./out/v1.0" := ∅]> cwd_with_out) ("./out" ++ "/" ++ "v1.0") = (false, 0)).
Proof.
  split; [reflexivity|]. split; [reflexivity|].
  split; [vm_compute; reflexivity|].
  apply (isFile_dotted_directory (<["./out/v1.0" := ∅]> cwd_with_out) "./out" "v1.0" ∅);
    vm_compute; reflexivity.
Defined.

(** X12: for an existing path [d/stem.ext], [ext] without dot,
    [getFileExtension] returns [ext], the text after the last dot of the
    last segment. *)
Theorem getFileExtension_last_dot (st : fs) (d stem ext : string) :
  Str.rfind_char "/" (stem ++ "." ++ ext) = None ->
  Str.rfind_char "." ext = None ->
  path_exists st (d ++ "/" ++ stem ++ "." ++ ext) = true ->
  getFileExtension st (d ++ "/" ++ stem ++ "." ++ ext) = Some ext.
Proof.
  intros Hsep Hext Hex.
  unfold getFileExtension, isFile.
  rewrite final_segment_join by exact Hsep.
  rewrite Hex. simpl.
  change (stem ++ "." ++ ext) with (stem ++ String "." ext).
  rewrite str_in_char, rfind_char_append by exact Hext. simpl.
  now rewrite last_part_split.
Qed.

Lemma getFileExtension_last_dot_witness :
  Str.rfind_char "/" ("archive.tar" ++ "." ++ "gz") = None /\
  Str.rfind_char "." "gz" = None /\
  path_exists (<["./out" := {[ "archive.tar.gz" := File "" ]}]> cwd_with_out)
    ("./out" ++ "/" ++ "archive.tar" ++ "." ++ "gz") = true /\
  getFileExtension (<["./out" := {[ "archive.tar.gz" := File "" ]}]> cwd_with_out)
    ("./out" ++ "/" ++ "archive.tar" ++ "." ++ "gz") = Some "gz".
Proof.
  split; [reflexivity|]. split; [reflexivity|].
  split; [vm_compute; reflexivity|].
  apply (getFileExtension_last_dot
           (<["./out" := {[ "archive.tar.gz" := File "" ]}]> cwd_with_out)
           "./out" "archive.tar" "gz"); vm_compute; reflexivity.
Defined.

(** X13: [checkFileIsValid] accepts only a path that exists, holds a
    separator, and whose extension is in the list; a bare file name is
    never accepted. *)
Theorem checkFileIsValid_sound (st : fs) (path : string) (validExtensions : list string) :
  checkFileIsValid st path validExtensions = true ->
  path_exists st path = true /\
  (Str.str_in "/" path = true \/ Str.str_in "\" path = true) /\
  exists ext, getFileExtension st path = Some ext /\ ext ∈ validExtensions.
Proof.
  unfold checkFileIsValid.
  destruct (getFileExtension st path) as [ext|] eqn:Hext; [|discriminate].
  intros Hin. apply bool_decide_eq_true in Hin.
  assert (Hfile : (isFile st path).1 = true).
  { unfold getFileExtension in Hext.
    destruct ((isFile st path).1); [reflexivity | discriminate]. }
  unfold isFile, final_segment in Hfile.
  destruct (Str.str_in "/" path) eqn:Hs, (Str.str_in "\" path) eqn:Hb,
           (path_exists st path) eqn:Hex; simpl in Hfile; try discriminate;
    (split; [reflexivity|]); (split; [tauto|]); eauto.
Qed.

Lemma checkFileIsValid_sound_witness :
  checkFileIsValid (<["./out" := {[ "a.txt" := File "" ]}]> cwd_with_out)
    "./out/a.txt" ["txt"; "csv"] = true /\
  (path_exists (<["./out" := {[ "a.txt" := File "" ]}]> cwd_with_out) "./out/a.txt" = true /\
   (Str.str_in "/" "./out/a.txt" = true \/ Str.str_in "\" "./out/a.txt" = true) /\
   exists ext,
     getFileExtension (<["./out" := {[ "a.txt" := File "" ]}]> cwd_with_out) "./out/a.txt"
     = Some ext /\ ext ∈ ["txt"; "csv"]).
Proof.
  split; [vm_compute; reflexivity|].
  apply (checkFileIsValid_sound (<["./out" := {[ "a.txt" := File "" ]}]> cwd_with_out)
           "./out/a.txt" ["txt"; "csv"]).
  vm_compute; reflexivity.
Defined.

End FileKindFacts.

(** ** [Serializable] *)

Section SerializableMoreFacts.

Import Os Serializable.
Local Open Scope string_scope.

Context {V : Type}.

Lemma keys_to_pop_private (d : list (string * V)) :
  Forall (fun kv => kv.1 <> "") d ->
  keys_to_pop d = Some (filter (fun k => is_private k = true) d.*1).
Proof.
  induction d as [|[k v] d IH]; intros Hne; [reflexivity|].
  apply Forall_cons in Hne as [Hk Hd]. simpl in Hk.
  simpl. rewrite (IH Hd).
  destruct k as [|c k]; [congruence|]. simpl.
  destruct (Ascii.eqb c "_") eqn:E.
  - rewrite filter_cons_True by (unfold is_private; simpl; exact E). reflexivity.
  - rewrite filter_cons_False by (unfold is_private; simpl; congruence). reflexivity.
Qed.

Lemma keys_to_pop_empty_key (d : list (string * V)) :
  "" ∈ d.*1 -> keys_to_pop d = None.
Proof.
  induction d as [|[k v] d IH]; intros Hin; simpl in *.
  - apply elem_of_nil in Hin. contradiction.
  - apply elem_of_cons in Hin as [<-|Hin]; [reflexivity|].
    destruct (Str.first_char k); simpl; [|reflexivity].
    now rewrite IH.
Qed.

Lemma filter_ext_in {T} (P Q : T -> Prop) `{!forall x, Decision (P x)}
    `{!forall x, Decision (Q x)} (l : list T) :
  (forall x, x ∈ l -> (P x <-> Q x)) -> filter P l = filter Q l.
Proof.
  induction l as [|x l IH]; intros Hpq; [reflexivity|].
  rewrite !filter_cons.
  rewrite IH by (intros y Hy; apply Hpq; now right).
  pose proof (Hpq x (list_elem_of_here x l)) as Hx.
  destruct (decide (P x)) as [Hp|Hp], (decide (Q x)) as [Hq|Hq];
    try reflexivity; tauto.
Qed.

Lemma pop_all_filter (keys : list string) :
  forall d : list (string * V),
    NoDup keys -> keys ⊆ d.*1 ->
    pop_all keys d = Some (filter (fun kv => kv.1 ∉ keys) d).
Proof.
  induction keys as [|k keys IH]; intros d Hnd Hsub; simpl.
  - f_equal. symmetry. induction d as [|kv d IHd]; [reflexivity|].
    rewrite filter_cons_True by apply not_elem_of_nil.
    f_equal. apply IHd. intros x Hx. apply elem_of_nil in Hx. contradiction.
  - apply NoDup_cons in Hnd as [Hk Hnd].
    unfold dict_pop.
    rewrite bool_decide_eq_true_2 by (apply Hsub; left). simpl.
    rewrite IH; [| exact Hnd |].
    + f_equal. rewrite list_filter_filter. apply list_filter_iff.
      intros kv. rewrite not_elem_of_cons. tauto.
    + intros x Hx.
      assert (Hxd : x ∈ d.*1) by (apply Hsub; now right).
      apply list_elem_of_fmap in Hxd as (kv & -> & Hkv).
      apply list_elem_of_fmap. exists kv. split; [reflexivity|].
      apply list_elem_of_filter. split; [|exact Hkv].
      intros Heq. rewrite Heq in Hx. contradiction.
Qed.

(** X14: on a [__dict__] without the empty key, [exclude_private] returns
    the items whose key does not start with an underscore, in their order,
    and nothing else. *)
Theorem exclude_private_filters (d : list (string * V)) :
  NoDup d.*1 ->
  Forall (fun kv => kv.1 <> "") d ->
  exclude_private d = Some (filter (fun kv => is_private kv.1 = false) d).
Proof.
  intros Hnd Hne. unfold exclude_private.
  rewrite keys_to_pop_private by exact Hne. simpl.
  rewrite pop_all_filter.
  - f_equal. apply filter_ext_in. intros kv Hkv.
    rewrite list_elem_of_filter.
    destruct (is_private kv.1) eqn:E.
    + split; [|discriminate]. intros H. exfalso. apply H. split; [reflexivity|].
      apply list_elem_of_fmap. eauto.
    + split; [reflexivity|]. intros _ [H _]. discriminate.
  - now apply NoDup_filter.
  - intros x Hx. now apply list_elem_of_filter in Hx as [_ Hx].
Qed.

End SerializableMoreFacts.

Section SerializableRoundTrip.

Import Os Serializable.
Local Open Scope string_scope.

Lemma exclude_private_filters_witness :
  NoDup [("name", 1%Z); ("_outer", 2%Z); ("size", 3%Z)].*1 /\
  Forall (fun kv : string * Z => kv.1 <> "") [("name", 1%Z); ("_outer", 2%Z); ("size", 3%Z)] /\
  exclude_private [("name", 1%Z); ("_outer", 2%Z); ("size", 3%Z)]
  = Some (filter (fun kv => is_private kv.1 = false)
            [("name", 1%Z); ("_outer", 2%Z); ("size", 3%Z)]).
Proof.
  assert (Hnd : NoDup [("name", 1%Z); ("_outer", 2%Z); ("size", 3%Z)].*1)
    by (simpl; repeat (apply NoDup_cons; split;
                         [rewrite ?elem_of_cons, elem_of_nil; intuition discriminate|]);
        apply NoDup_nil_2).
  assert (Hne : Forall (fun kv : string * Z => kv.1 <> "")
                  [("name", 1%Z); ("_outer", 2%Z); ("size", 3%Z)])
    by (repeat constructor; discriminate).
  split; [exact Hnd|]. split; [exact Hne|].
  apply (exclude_private_filters [("name", 1%Z); ("_outer", 2%Z); ("size", 3%Z)] Hnd Hne).
Defined.

(** X15: an attribute with the empty name makes [exclude_private] raise
    ([key[0]] on the empty string), whatever the other attributes. *)
Theorem exclude_private_empty_key {V} (d : list (string * V)) :
  "" ∈ d.*1 -> exclude_private d = None.
Proof.
  intros Hin. unfold exclude_private.
  now rewrite keys_to_pop_empty_key.
Qed.

Lemma exclude_private_empty_key_witness :
  "" ∈ [("a", 1%Z); ("", 2%Z)].*1 /\
  exclude_private [("a", 1%Z); ("", 2%Z)] = None.
Proof.
  assert (Hin : "" ∈ [("a", 1%Z); ("", 2%Z)].*1) by (right; left).
  split; [exact Hin | apply (exclude_private_empty_key [("a", 1%Z); ("", 2%Z)] Hin)].
Defined.

(** X16: what [to_file] wrote can be read back: when it returns a path,
    that path is the normalised argument and the file there holds the
    serialised text. *)
Theorem to_file_then_read (st st' : fs) (json file_path p : string) :
  to_file st json file_path = (st', Ret (Some p)) ->
  p = FileManagement.path_to_python file_path /\ read_file st' p = Some json.
Proof.
  unfold to_file.
  set (fp := FileManagement.path_to_python file_path).
  destruct (negb (Str.str_in "." fp)); [discriminate|].
  destruct (if negb _ then _ else _) as [st1|]; [|discriminate].
  destruct (write_file st1 fp json) as [st2|] eqn:Hw; [|discriminate].
  intros [= <- <-]. split; [reflexivity|].
  unfold write_file in Hw. unfold read_file.
  destruct (split fp) as [d n].
  destruct (st1 !! d) as [ents|]; simpl in Hw; [|discriminate].
  assert (Hst2 : st2 = <[d := <[n := File json]> ents]> st1).
  { destruct (ents !! n) as [[t|]|]; congruence. }
  subst st2. rewrite lookup_insert_eq. simpl.
  rewrite lookup_insert_eq. reflexivity.
Qed.

Lemma to_file_then_read_witness :
  to_file cwd_with_out "{}" ".\out\obj.json"
  = (<["./out" := {[ "obj.json" := File "{}" ]}]> cwd_with_out, Ret (Some "./out/obj.json")) /\
  ("./out/obj.json" = FileManagement.path_to_python ".\out\obj.json" /\
   read_file (<["./out" := {[ "obj.json" := File "{}" ]}]> cwd_with_out) "./out/obj.json"
   = Some "{}").
Proof.
  assert (H : to_file cwd_with_out "{}" ".\out\obj.json"
              = (<["./out" := {[ "obj.json" := File "{}" ]}]> cwd_with_out,
                 Ret (Some "./out/obj.json"))) by (vm_compute; reflexivity).
  split; [exact H | apply (to_file_then_read _ _ _ _ _ H)].
Defined.





(** With the [from_dict] of the base class, [from_file] returns
    nothing for every path and every file content, and never raises:
    a missing file, text that does not parse and text that parses all end in
    the absent result. *)
Theorem from_file_base_returns_nothing {J Obj : Type}
    (json_loads : string -> option J) (st : fs) (json_file_path : string) :
  from_file (Obj := Obj) json_loads st json_file_path = Ret None.
Proof.
  unfold from_file, deserialize, from_dict.
  destruct (read_file st _); [|reflexivity].
  destruct (json_loads _); reflexivity.
Qed.

End SerializableRoundTrip.

(** ** More on [MathAndStatistics] *)

Section MathMoreFacts.

Import MathAndStatistics.

Lemma poly_eval_from (coefs : list Z) (x y0 : Z) :
  fold_left (fun y a => y * x + a) coefs y0
  = y0 * x ^ Z.of_nat (length coefs) + poly_eval coefs x.
Proof.
  unfold poly_eval. revert y0.
  induction coefs as [|a coefs IH]; intros y0; simpl fold_left.
  - simpl length. rewrite Nat2Z.inj_0, Z.pow_0_r. ring.
  - rewrite IH, (IH (0 * x + a)).
    simpl length. rewrite Nat2Z.inj_succ, Z.pow_succ_r by lia. ring.
Qed.

(** X18: how [poly_eval] composes.  Evaluating a concatenation is
    evaluating the left part, shifting it by the length of the right part,
    and adding the right part; leading zero coefficients change nothing;
    at 0 the value is the last coefficient, the constant term. *)
Theorem poly_eval_compose :
  (forall coefs1 coefs2 x,
     poly_eval (coefs1 ++ coefs2) x
     = poly_eval coefs1 x * x ^ Z.of_nat (length coefs2) + poly_eval coefs2 x) /\
  (forall k coefs x, poly_eval (repeat 0 k ++ coefs) x = poly_eval coefs x) /\
  (forall coefs, poly_eval coefs 0 = List.last coefs 0).
Proof.
  assert (Happ : forall coefs1 coefs2 x,
             poly_eval (coefs1 ++ coefs2) x
             = poly_eval coefs1 x * x ^ Z.of_nat (length coefs2) + poly_eval coefs2 x).
  { intros coefs1 coefs2 x. unfold poly_eval at 1.
    rewrite fold_left_app. apply poly_eval_from. }
  split; [exact Happ|]. split.
  - intros k coefs x. rewrite Happ.
    assert (Hzero : poly_eval (repeat 0 k) x = 0).
    { induction k as [|k IH]; [reflexivity|].
      change (repeat 0 (S k)) with ([0] ++ repeat 0 k).
      rewrite Happ, IH. unfold poly_eval. simpl. lia. }
    rewrite Hzero. ring.
  - intros coefs. induction coefs as [|a coefs IH] using rev_ind; [reflexivity|].
    rewrite Happ, last_last. unfold poly_eval at 2. simpl.
    change (Z.of_nat 1) with 1. lia.
Qed.

End MathMoreFacts.

(** ** More on [plotSetOfSignals] *)

Section PlottingMoreFacts.

Import Plotting.

(** X20: after the normalisation of [alphas] there is one alpha per
    series; the only failure is the empty list given for a non-empty set of
    series, where [alphas[0]] raises. *)
Theorem normalise_alphas_length (n : nat) (alphas : alphas_arg) :
  match normalise_alphas n alphas with
  | Some l => length l = n
  | None => alphas = AlphasList [] /\ n <> O
  end.
Proof.
  destruct alphas as [|a|l|]; simpl; try apply length_replicate.
  destruct (Nat.eqb_spec (length l) n) as [Heq|Hne]; simpl; [exact Heq|].
  destruct l as [|a0 l]; simpl.
  - split; [reflexivity|]. simpl in Hne. congruence.
  - apply length_replicate.
Qed.

(** X21: with the default [signal_names=None] the function cannot plot
    anything: for every non-empty set of series it raises, whatever the
    other arguments. *)
Theorem plotSetOfSignals_needs_names {T} (signal_set : list (list T))
    (signal_colors : list string) (x_signal_set : option (list (list Z)))
    (alphas : alphas_arg) :
  signal_set <> [] ->
  plotSetOfSignals signal_set signal_colors x_signal_set None alphas = None.
Proof.
  intros Hne. unfold plotSetOfSignals.
  destruct (normalise_alphas _ _) as [al|]; [|reflexivity]. simpl.
  unfold plot_loop.
  destruct signal_set as [|y0 rest]; [congruence|].
  simpl length. simpl seq. simpl.
  destruct (x_signal_set_or_default (y0 :: rest) x_signal_set !! 0%nat); reflexivity.
Qed.

Lemma plotSetOfSignals_needs_names_witness :
  [[1; 2; 3]] <> [] /\
  plotSetOfSignals [[1; 2; 3]] ["red"%string] None None AlphasNone = None.
Proof.
  split; [discriminate|].
  apply (plotSetOfSignals_needs_names [[1; 2; 3]] ["red"%string] None AlphasNone).
  discriminate.
Defined.

(** X22: when the function gets to plot, it makes one call per series, in
    order, each with its own series as Y; and when no X-series were passed,
    every call has the indices of the first series as X. *)
Theorem plotSetOfSignals_calls {T} (signal_set : list (list T))
    (signal_colors : list string) (x_signal_set : option (list (list Z)))
    (signal_names : option (list string)) (alphas : alphas_arg)
    (calls : list (plot_call T)) :
  plotSetOfSignals signal_set signal_colors x_signal_set signal_names alphas = Some calls ->
  length calls = length signal_set /\
  (forall i c, calls !! i = Some c ->
     signal_set !! i = Some (call_y c) /\
     (x_signal_set = None -> call_x c = own_indices (nth 0 signal_set []))).
Proof.
  unfold plotSetOfSignals.
  destruct (normalise_alphas _ _) as [al|]; [|discriminate]. simpl.
  unfold plot_loop. intros Hcalls.
  apply mapM_Some in Hcalls.
  pose proof (Forall2_length _ _ _ Hcalls) as Hlen. rewrite length_seq in Hlen.
  split; [now symmetry|].
  intros i c Hc.
  destruct (Forall2_lookup_r _ _ _ _ _ Hcalls Hc) as (j & Hj & Hbody).
  apply lookup_seq in Hj as [-> _]. simpl in Hbody.
  destruct (x_signal_set_or_default signal_set x_signal_set !! i) as [x|] eqn:Hx;
    simpl in Hbody; [|discriminate].
  destruct (signal_set !! i) as [y|] eqn:Hy; simpl in Hbody; [|discriminate].
  destruct signal_names as [names|]; simpl in Hbody; [|discriminate].
  destruct (names !! i); simpl in Hbody; [|discriminate].
  destruct (signal_colors !! i); simpl in Hbody; [|discriminate].
  destruct (al !! i); simpl in Hbody; [|discriminate].
  injection Hbody as <-. simpl. split; [reflexivity|].
  intros ->. simpl in Hx.
  unfold default_x_signal_set in Hx.
  rewrite list_lookup_fmap, Hy in Hx. simpl in Hx. now injection Hx as <-.
Qed.

Lemma plotSetOfSignals_calls_witness :
  plotSetOfSignals [[1; 2]; [3; 4]] ["r"; "g"]%string None (Some ["a"; "b"]%string) AlphasNone
  = Some [PlotCall [0; 1] [1; 2] "a" "r" 1%Q; PlotCall [0; 1] [3; 4] "b" "g" 1%Q] /\
  (length [PlotCall [0; 1] [1; 2] "a"%string "r"%string 1%Q;
           PlotCall [0; 1] [3; 4] "b"%string "g"%string 1%Q]
   = length [[1; 2]; [3; 4]] /\
   (forall i c,
      [PlotCall [0; 1] [1; 2] "a"%string "r"%string 1%Q;
       PlotCall [0; 1] [3; 4] "b"%string "g"%string 1%Q] !! i = Some c ->
      [[1; 2]; [3; 4]] !! i = Some (call_y c) /\
      ((None : option (list (list Z))) = None ->
       call_x c = own_indices (nth 0 [[1; 2]; [3; 4]] [])))).
Proof.
  assert (H : plotSetOfSignals [[1; 2]; [3; 4]] ["r"; "g"]%string None
                (Some ["a"; "b"]%string) AlphasNone
              = Some [PlotCall [0; 1] [1; 2] "a" "r" 1%Q; PlotCall [0; 1] [3; 4] "b" "g" 1%Q])
    by reflexivity.
  split; [exact H | apply (plotSetOfSignals_calls _ _ _ _ _ _ H)].
Defined.

End PlottingMoreFacts.

(** ** The ink tables *)

Section InkFacts.

Import ColorSpace.
Local Open Scope string_scope.

(** A lookup in a dict display finds the value of the last item with that
    key. *)
Lemma fold_insert_lookup {K V} `{Countable K} (items : list (K * V)) (k : K) :
  fold_left (fun m kv => <[kv.1 := kv.2]> m) items (∅ : gmap K V) !! k
  = fold_left (fun acc kv => if decide (kv.1 = k) then Some kv.2 else acc) items None.
Proof.
  assert (Hgen : forall (m : gmap K V) acc,
             m !! k = acc ->
             fold_left (fun m kv => <[kv.1 := kv.2]> m) items m !! k
             = fold_left (fun acc kv => if decide (kv.1 = k) then Some kv.2 else acc)
                 items acc).
  { induction items as [|[k' v] items IH]; intros m acc Hm; [exact Hm|].
    simpl. apply IH. rewrite lookup_insert. simpl.
    destruct (decide (k' = k)); [reflexivity | exact Hm]. }
  apply Hgen, lookup_empty.
Qed.

Lemma py_dict_lookup {V} (items : list (string * V)) (k : string) :
  py_dict items !! k
  = fold_left (fun acc kv => if decide (kv.1 = k) then Some kv.2 else acc) items None.
Proof. apply fold_insert_lookup. Qed.

(** X23: [INK_NameToFocusChannelLCH] returns ["C*"] for the five spellings
    of yellow and ["L*"] for every other string, known or not; it never
    raises, and the channel it returns always has a peak-sign entry. *)
Theorem INK_NameToFocusChannelLCH_yellow (name : string) :
  INK_NameToFocusChannelLCH name
  = (if bool_decide (name ∈ ["yellow"; "Yellow"; "Y"; "y"; "2"])
     then CHANNEL.C else CHANNEL.L) /\
  is_Some (DICT_peak_types_for_channel !! INK_NameToFocusChannelLCH name).
Proof.
  assert (Hval : INK_NameToFocusChannelLCH name
                 = if bool_decide (name ∈ ["yellow"; "Yellow"; "Y"; "y"; "2"])
                   then CHANNEL.C else CHANNEL.L).
  { unfold INK_NameToFocusChannelLCH, INK.NameToIdent.
    rewrite py_dict_lookup.
    unfold INK.NameToIdent_items. cbn [fold_left fst snd].
    repeat (case_decide; [subst name; vm_compute; reflexivity|]).
    rewrite (bool_decide_eq_false_2 (name ∈ _)).
    - reflexivity.
    - rewrite !elem_of_cons, elem_of_nil. intuition congruence. }
  split; [exact Hval|].
  rewrite Hval. destruct (bool_decide _); vm_compute; eauto.
Qed.

(** X24: the ink tables agree.  Every spelling [NameToIdent] knows maps to
    an ident that [IdentToName] names, and that canonical name maps back to
    the same ident, in [NameToIdent] and in [DICT_fiery_channel_ident];
    [IdentToName] followed by [NameToIdent] is the identity, and
    [IdentToName] knows exactly the idents 0 to 5. *)
Theorem ink_tables_agree :
  (forall name id,
     INK.NameToIdent !! name = Some id ->
     exists canon, INK.IdentToName !! id = Some canon /\
                   INK.NameToIdent !! canon = Some id /\
                   DICT_fiery_channel_ident !! canon = Some id) /\
  (forall id canon,
     INK.IdentToName !! id = Some canon -> INK.NameToIdent !! canon = Some id) /\
  (forall id, is_Some (INK.IdentToName !! id) <-> (0 <= id <= 5)%Z).
Proof.
  split; [|split].
  - intros name id. unfold INK.NameToIdent at 1.
    rewrite py_dict_lookup.
    unfold INK.NameToIdent_items. cbn [fold_left fst snd].
    repeat (case_decide;
            [subst name; intros [= <-]; eexists; repeat split; vm_compute; reflexivity|]).
    discriminate.
  - intros id canon. unfold INK.IdentToName.
    rewrite fold_insert_lookup. cbn [fold_left fst snd].
    repeat (case_decide; [subst id; intros [= <-]; vm_compute; reflexivity|]).
    discriminate.
  - intros id. unfold INK.IdentToName.
    rewrite fold_insert_lookup. cbn [fold_left fst snd].
    unfold INK.Cyan, INK.Magenta, INK.Yellow, INK.Black, INK.Orange, INK.Violet.
    repeat (case_decide; [subst id; split; [lia | eauto]|]).
    split; [intros [x Hx]; discriminate | lia].
Qed.

(** Each of the seven colour spaces has a default target channel, and
    every default target channel is a key of the peak-sign table. *)
Theorem default_target_channels_have_peak_type :
  Forall (fun space => is_Some (DICT_default_target_channel !! space))
         [RGB; BGR; HSV; HLS; XYZ; LAB; LCH] /\
  (forall space channel,
     DICT_default_target_channel !! space = Some channel ->
     is_Some (DICT_peak_types_for_channel !! channel)).
Proof.
  split.
  - repeat (apply Forall_cons; split; [vm_compute; eauto|]). apply Forall_nil. trivial.
  - intros space channel. unfold DICT_default_target_channel.
    rewrite py_dict_lookup. cbn [fold_left fst snd].
    repeat (case_decide; [intros [= <-]; vm_compute; eauto|]).
    discriminate.
Qed.

End InkFacts.

(** ** More on the graph computation of [ej1_nodos] *)

Section GraphFacts.

Import Ej0201.

Lemma sum_zip_sub (u : list Z) :
  forall v, length u = length v ->
    fold_right Z.add 0 (zip_with Z.sub u v)
    = fold_right Z.add 0 u - fold_right Z.add 0 v.
Proof.
  induction u as [|a u IH]; intros [|b v] Hlen; simpl in *; try lia.
  rewrite IH by lia. lia.
Qed.

Lemma sum_indicator (x : Z) (i : nat) (l : list Z) :
  forall k,
    fold_right Z.add 0 (imap (fun j _ => if Nat.eqb i (k + j) then x else 0) l)
    = if ((k <=? i) && (i <? k + length l))%nat then x else 0.
Proof.
  induction l as [|a l IH]; intros k; simpl.
  - destruct (Nat.leb_spec k i), (Nat.ltb_spec i (k + 0)); simpl; try reflexivity; lia.
  - rewrite (imap_ext _ (fun j _ => if Nat.eqb i (S k + j) then x else 0))
      by (intros j y _; simpl; now rewrite Nat.add_succ_r).
    rewrite IH.
    destruct (Nat.eqb_spec i (k + 0)), (Nat.leb_spec k i), (Nat.ltb_spec i (k + S (length l))),
      (Nat.leb_spec (S k) i), (Nat.ltb_spec i (S k + length l)); simpl; lia.
Qed.

(** X25: for every square matrix [A], each row of the Laplacian [D - A]
    built from its row sums adds up to 0: the full Laplacian is singular,
    which is why a row and a column are removed before solving. *)
Theorem laplacian_rows_sum_to_zero (A : list (list Z)) :
  Forall (fun r => length r = length A) A ->
  Forall (fun r => fold_right Z.add 0 r = 0) (mat_sub (diag (degrees A)) A).
Proof.
  intros Hsq. apply Forall_lookup. intros i r Hr.
  unfold mat_sub in Hr.
  apply lookup_zip_with_Some in Hr as (x & y & -> & Hx & Hy).
  unfold diag in Hx. rewrite list_lookup_imap in Hx.
  destruct (degrees A !! i) as [di|] eqn:Hdi; [|discriminate].
  injection Hx as <-.
  unfold degrees in Hdi. rewrite list_lookup_fmap, Hy in Hdi.
  injection Hdi as <-.
  assert (Hlen : length y = length A).
  { rewrite Forall_lookup in Hsq. exact (Hsq i y Hy). }
  assert (Hi : (i < length A)%nat) by (eapply lookup_lt_Some; eassumption).
  rewrite sum_zip_sub by (rewrite length_imap; unfold degrees; rewrite length_map; lia).
  rewrite (sum_indicator _ i _ 0). fold (degrees A).
  unfold degrees at 1. rewrite length_map.
  destruct (Nat.leb_spec 0 i), (Nat.ltb_spec i (0 + length A)); simpl; lia.
Qed.

Lemma laplacian_rows_sum_to_zero_witness :
  Forall (fun r => length r = length A) A /\
  Forall (fun r => fold_right Z.add 0 r = 0) (mat_sub (diag (degrees A)) A).
Proof.
  assert (Hsq : Forall (fun r => length r = length A) A) by (repeat constructor).
  split; [exact Hsq | apply (laplacian_rows_sum_to_zero A Hsq)].
Defined.

(** X26: the reconstruction inverts the masking.  When [full_x[mask] = x]
    succeeds, the full vector is as long as the mask and reading it back
    through the mask gives [x], the solved values in their order. *)
Theorem scatter_then_select (mask : list bool) :
  forall (x full_x : list Q),
    scatter mask x = Some full_x ->
    length full_x = length mask /\ select mask full_x = x.
Proof.
  induction mask as [|b mask IH]; intros x full_x Hs; simpl in Hs.
  - destruct x; [|discriminate]. injection Hs as <-. split; reflexivity.
  - destruct b.
    + destruct x as [|v x]; [discriminate|].
      destruct (scatter mask x) as [t|] eqn:Ht; [|discriminate].
      injection Hs as <-. destruct (IH x t Ht) as [Hlen Hsel].
      simpl. rewrite Hlen, Hsel. split; reflexivity.
    + destruct (scatter mask x) as [t|] eqn:Ht; [|discriminate].
      injection Hs as <-. destruct (IH x t Ht) as [Hlen Hsel].
      simpl. rewrite Hlen, Hsel. split; reflexivity.
Qed.

Lemma scatter_then_select_witness :
  scatter [true; false; true] [1 # 2; 3 # 4]%Q = Some [1 # 2; 0; 3 # 4]%Q /\
  (length [1 # 2; 0; 3 # 4]%Q = length [true; false; true] /\
   select [true; false; true] [1 # 2; 0; 3 # 4]%Q = [1 # 2; 3 # 4]%Q).
Proof.
  assert (H : scatter [true; false; true] [1 # 2; 3 # 4]%Q = Some [1 # 2; 0; 3 # 4]%Q)
    by reflexivity.
  split; [exact H | apply (scatter_then_select _ _ _ H)].
Defined.

End GraphFacts.

(** ** Histogram equalisation *)

Section HisteqFacts.

Import P1.

Lemma cumsum_from_lookup (a : list Z) :
  forall acc k x,
    a !! k = Some x ->
    cumsum_from acc a !! k = Some (acc + fold_right Z.add 0 (take (S k) a)).
Proof.
  induction a as [|y a IH]; intros acc k x Hk; [discriminate|].
  destruct k as [|k]; simpl.
  - f_equal. destruct a; simpl; lia.
  - simpl in Hk. rewrite (IH (acc + y) k x Hk). f_equal.
    change (take (S (S k)) (y :: a)) with (y :: take (S k) a). simpl. lia.
Qed.

Lemma cumsum_from_length (a : list Z) :
  forall acc, length (cumsum_from acc a) = length a.
Proof. induction a as [|y a IH]; intros acc; simpl; [reflexivity | now rewrite IH]. Qed.

Lemma take_map_seq (f : nat -> Z) (k m : nat) :
  (k <= m)%nat -> take k (map f (seq 0 m)) = map f (seq 0 k).
Proof.
  intros Hk. rewrite firstn_map, take_seq. now rewrite Nat.min_l by lia.
Qed.

(** The bin of a level in range. *)
Lemma in_bin_range (nbins k : nat) (v : Z) :
  (2 <= nbins)%nat -> (k < nbins - 1)%nat -> 0 <= v <= Z.of_nat nbins - 1 ->
  in_bin (map Z.of_nat (seq 0 nbins)) k v = (Z.of_nat k =? bin_of nbins v).
Proof.
  intros Hn Hk Hv. unfold in_bin, bin_of.
  change (map Z.of_nat (seq 0 nbins)) with (Z.of_nat <$> seq 0 nbins).
  rewrite !list_lookup_fmap, !lookup_seq_lt by lia.
  rewrite length_fmap, length_seq.
  destruct (Nat.eqb_spec (S (S k)) nbins); simpl;
    destruct (Z.leb_spec (Z.of_nat k) v), (Z.ltb_spec v (Z.of_nat (S k))),
      (Z.eqb_spec v (Z.of_nat (S k))),
      (Z.eqb_spec (Z.of_nat k) (Z.min v (Z.of_nat nbins - 2))); simpl; try reflexivity; lia.
Qed.

Lemma count_split (P Q R : Z -> Prop)
    `{!forall v, Decision (P v)} `{!forall v, Decision (Q v)} `{!forall v, Decision (R v)}
    (data : list Z) :
  Forall (fun v => (R v <-> P v \/ Q v) /\ ~ (P v /\ Q v)) data ->
  length (filter R data) = (length (filter P data) + length (filter Q data))%nat.
Proof.
  induction data as [|v data IH]; intros Hall; [reflexivity|].
  apply Forall_cons in Hall as [[Hr Hpq] Hall].
  rewrite !filter_cons. specialize (IH Hall).
  destruct (decide (P v)), (decide (Q v)), (decide (R v)); simpl; try lia; tauto.
Qed.

Lemma filter_length_ext (P Q : Z -> Prop)
    `{!forall v, Decision (P v)} `{!forall v, Decision (Q v)} (data : list Z) :
  Forall (fun v => P v <-> Q v) data ->
  length (filter P data) = length (filter Q data).
Proof.
  induction data as [|v data IH]; intros Hall; [reflexivity|].
  apply Forall_cons in Hall as [Hv Hall].
  rewrite !filter_cons. specialize (IH Hall).
  destruct (decide (P v)), (decide (Q v)); simpl; try lia; tauto.
Qed.

(** The cumulated histogram counts the pixels up to a bin. *)
Lemma histogram_prefix_sum (im : list Z) (nbins : nat) :
  (2 <= nbins)%nat ->
  Forall (fun v => 0 <= v <= Z.of_nat nbins - 1) im ->
  forall k, (k < nbins - 1)%nat ->
    fold_right Z.add 0
      (map (fun k => Z.of_nat (length (filter
                      (fun v => in_bin (map Z.of_nat (seq 0 nbins)) k v = true) im)))
           (seq 0 (S k)))
    = Z.of_nat (length (filter (fun w => bin_of nbins w <= Z.of_nat k) im)).
Proof.
  intros Hn Hrange.
  assert (Hbin : forall j, (j < nbins - 1)%nat ->
            length (filter (fun v => in_bin (map Z.of_nat (seq 0 nbins)) j v = true) im)
            = length (filter (fun w => bin_of nbins w = Z.of_nat j) im)).
  { intros j Hj. apply filter_length_ext.
    eapply Forall_impl; [exact Hrange|]. intros v Hv. simpl in Hv |- *.
    rewrite in_bin_range by assumption. rewrite Z.eqb_eq. split; congruence. }
  induction k as [|k IH]; intros Hk.
  - simpl. rewrite Hbin by lia. rewrite Z.add_0_r. f_equal.
    apply filter_length_ext.
    eapply Forall_impl; [exact Hrange|]. intros v Hv. simpl in Hv |- *.
    unfold bin_of. lia.
  - assert (Hshift : forall (l : list Z) (c : Z),
               fold_right Z.add c l = fold_right Z.add 0 l + c).
    { induction l as [|y l IHl]; intros c; simpl; [lia|]. rewrite IHl. lia. }
    rewrite seq_S, map_app, fold_right_app, Hshift, IH by lia.
    cbn [map fold_right Nat.add]. rewrite Hbin by lia.
    rewrite Z.add_0_r, <- Nat2Z.inj_add. f_equal. symmetry.
    apply count_split.
    eapply Forall_impl; [exact Hrange|]. intros v Hv. simpl in Hv |- *. lia.
Qed.

(** [cdf[k]] is the number of pixels in the bins up to [k]. *)
Lemma cdf_lookup (im : list Z) (nbins k : nat) :
  (2 <= nbins)%nat ->
  Forall (fun v => 0 <= v <= Z.of_nat nbins - 1) im ->
  (k < nbins - 1)%nat ->
  cumsum (np_histogram im (map Z.of_nat (seq 0 nbins))) !! k
  = Some (Z.of_nat (length (filter (fun w => bin_of nbins w <= Z.of_nat k) im))).
Proof.
  intros Hn Hrange Hk. unfold cumsum, np_histogram.
  rewrite length_map, length_seq.
  set (h := fun k => Z.of_nat (length (filter
              (fun v => in_bin (map Z.of_nat (seq 0 nbins)) k v = true) im))).
  assert (Hh : map h (seq 0 (nbins - 1)) !! k = Some (h k)).
  { change (map h (seq 0 (nbins - 1))) with (h <$> seq 0 (nbins - 1)).
    rewrite list_lookup_fmap, lookup_seq_lt by lia. reflexivity. }
  rewrite (cumsum_from_lookup _ _ _ _ Hh), take_map_seq by lia.
  unfold h. rewrite histogram_prefix_sum by assumption. f_equal.
Qed.

Lemma mapM_Forall2 {A B : Type} (f : A -> option B) (P : A -> B -> Prop) (l : list A) :
  Forall (fun x => exists y, f x = Some y /\ P x y) l ->
  exists k, mapM f l = Some k /\ Forall2 P l k.
Proof.
  induction l as [|x l IH]; intros Hall.
  - exists []. split; [reflexivity | constructor].
  - apply Forall_cons in Hall as [(y & Hy & HP) Hall].
    destruct (IH Hall) as (k & Hk & HF).
    exists (y :: k). split; [|now constructor].
    simpl. rewrite Hy. simpl. rewrite Hk. reflexivity.
Qed.

Lemma removelast_range (nbins : nat) :
  (1 <= nbins)%nat ->
  removelast (map Z.of_nat (seq 0 nbins)) = map Z.of_nat (seq 0 (nbins - 1)).
Proof.
  intros Hn. destruct nbins as [|m]; [lia|].
  replace (S m - 1)%nat with m by lia.
  rewrite seq_S, map_app. cbn [map]. apply removelast_last.
Qed.

Lemma cdf_length (im : list Z) (nbins : nat) :
  length (cumsum (np_histogram im (map Z.of_nat (seq 0 nbins)))) = (nbins - 1)%nat.
Proof.
  unfold cumsum, np_histogram.
  now rewrite cumsum_from_length, !length_map, !length_seq.
Qed.

Lemma cdf_total (im : list Z) (nbins : nat) :
  (2 <= nbins)%nat ->
  Forall (fun v => 0 <= v <= Z.of_nat nbins - 1) im ->
  last (cumsum (np_histogram im (map Z.of_nat (seq 0 nbins))))
  = Some (Z.of_nat (length im)).
Proof.
  intros Hn Hrange. rewrite last_lookup, cdf_length.
  rewrite cdf_lookup by (assumption || lia). do 2 f_equal.
  induction Hrange as [|v im Hv Hrange IH]; [reflexivity|].
  rewrite filter_cons. destruct (decide _) as [_|Hbin].
  - simpl. now rewrite IH.
  - exfalso. apply Hbin. unfold bin_of. lia.
Qed.

(** [np.interp] returns a value as soon as there is a sample point and as
    many values as sample points. *)
Lemma np_interp_total (x : spec_float) (xp fp : list spec_float) :
  length xp = length fp -> xp <> [] -> is_Some (np_interp x xp fp).
Proof.
  intros Hlen Hne. unfold np_interp.
  rewrite Hlen, Nat.eqb_refl. simpl.
  destruct xp as [|x0 xp]; [congruence|].
  destruct fp as [|y0 fp]; [discriminate|].
  simpl. eauto.
Qed.

Lemma histeq_returns_cdf (im : list Z) (nbins : nat) :
  (2 <= nbins)%nat ->
  Forall (fun v => 0 <= v <= Z.of_nat nbins - 1) im ->
  exists out,
    histeq im nbins
    = Some (out, cumsum (np_histogram im (map Z.of_nat (seq 0 nbins)))).
Proof.
  intros Hn Hrange. unfold histeq.
  rewrite cdf_total by assumption. cbn [mbind option_bind].
  rewrite removelast_range by lia.
  set (cdf := cumsum (np_histogram im (map Z.of_nat (seq 0 nbins)))).
  set (fp := map _ cdf).
  set (xp := map b64 _).
  destruct (mapM_Forall2 (fun v => np_interp (b64 v) xp fp) (fun _ _ => True) im)
    as (k & Hk & _).
  { apply Forall_forall. intros v _.
    destruct (np_interp_total (b64 v) xp fp) as [r Hr].
    - unfold xp, fp, cdf. rewrite !length_map, length_seq. symmetry. apply cdf_length.
    - unfold xp. intros E. apply (f_equal length) in E.
      rewrite !length_map, length_seq in E. simpl in E. lia.
    - exists r. split; [exact Hr | exact I]. }
  rewrite Hk. cbn [mbind option_bind]. eauto.
Qed.

(** X29: the second result of [histeq] is the cumulated histogram: it has
    [nbins - 1] entries and entry [k] is the number of pixels in the bins
    up to [k], so that the last entry is the number of pixels. *)
Theorem histeq_cdf (im : list Z) (nbins : nat) :
  (2 <= nbins)%nat ->
  Forall (fun v => 0 <= v <= Z.of_nat nbins - 1) im ->
  exists out cdf,
    histeq im nbins = Some (out, cdf) /\
    length cdf = (nbins - 1)%nat /\
    (forall k, (k < nbins - 1)%nat ->
       cdf !! k = Some (Z.of_nat (length
                   (filter (fun w => bin_of nbins w <= Z.of_nat k) im)))) /\
    last cdf = Some (Z.of_nat (length im)).
Proof.
  intros Hn Hrange.
  assert (Hcdf : forall out,
             histeq im nbins
             = Some (out, cumsum (np_histogram im (map Z.of_nat (seq 0 nbins)))) ->
             exists out cdf,
               histeq im nbins = Some (out, cdf) /\
               length cdf = (nbins - 1)%nat /\
               (forall k, (k < nbins - 1)%nat ->
                  cdf !! k = Some (Z.of_nat (length
                              (filter (fun w => bin_of nbins w <= Z.of_nat k) im)))) /\
               last cdf = Some (Z.of_nat (length im))).
  { intros out Heq. eexists _, _. split; [exact Heq|].
    split; [apply cdf_length|]. split.
    - intros k Hk. now apply cdf_lookup.
    - now apply cdf_total. }
  destruct (histeq_returns_cdf im nbins Hn Hrange) as (out & Heq).
  exact (Hcdf _ Heq).
Qed.

Lemma histeq_cdf_witness :
  exists out cdf,
    histeq [0; 0; 1; 3; 3; 3] 4 = Some (out, cdf) /\
    length cdf = (4 - 1)%nat /\
    (forall k, (k < 4 - 1)%nat ->
       cdf !! k = Some (Z.of_nat (length
                   (filter (fun w => bin_of 4 w <= Z.of_nat k) [0; 0; 1; 3; 3; 3])))) /\
    last cdf = Some (Z.of_nat (length [0; 0; 1; 3; 3; 3])).
Proof.
  apply (histeq_cdf [0; 0; 1; 3; 3; 3] 4).
  - lia.
  - repeat constructor; lia.
Defined.

End HisteqFacts.
